(** * Refresh-token rotation: the [jwt] and [session] callbacks

    A shallow embedding of the two callbacks of the refresh-token rotation
    guide (src/apps/examples/solid-start/src/root.tsx):

    - the [jwt] callback of the JWT strategy (source lines 88-147), and
    - the [session] callback of the database strategy (lines 203-250).

    Both are asynchronous functions that read the clock, may call the
    provider's token endpoint, write to the console, and (database strategy)
    read and update the [account] table.  They are embedded in a small
    state-and-exception monad over a [World] that records exactly these
    effects. *)

From Stdlib Require Import ZArith QArith Qround SpecFloat String List Bool Lia.
Import ListNotations.
Local Open Scope string_scope.
Local Open Scope list_scope.
Local Open Scope Z_scope.

(** ** JavaScript values used by the callbacks *)

Module Js.

(** [!x] is false exactly for a string that is present and non-empty;
    [undefined], [null] and the empty string are falsy. *)
Definition truthy (x : option string) : bool :=
  match x with
  | Some s => negb (String.eqb s "")
  | None => false
  end.

(** [a ?? b]: the left operand unless it is [undefined] or [null]. *)
Definition nullish {A : Type} (a b : option A) : option A :=
  match a with
  | Some x => Some x
  | None => b
  end.

(** [Math.floor(nowMs / 1000 + expiresIn)], computed over the rationals.
    JavaScript computes it in binary64, rounding after the division and
    after the addition ([Binary64.floor_seconds] below); the two agree on
    [Binary64.exact_range] (lemma [floor_seconds_binary64]), which holds every
    clock a [Date] can show and every lifetime a provider grants, and may
    differ by one beyond it.  What is proved of the exact value of a new
    expiry carries that range as a hypothesis. *)
Definition floor_seconds (nowMs expiresIn : Z) : Z :=
  Qfloor (inject_Z nowMs / inject_Z 1000 + inject_Z expiresIn)%Q.

(** [URLSearchParams] turns every value into a string: a string is itself,
    and the [null] of an empty column becomes the string ["null"]. *)
Definition to_param (x : option string) : string :=
  match x with
  | Some s => s
  | None => "null"
  end.

(** What a [throw] (or a rejected promise) carries. *)
Inductive thrown : Type :=
| Error (message : string)          (* new Error(message) *)
| TypeError (message : string)      (* property read on undefined *)
| Payload (body : string)           (* throw responseTokens *)
| Rejection (reason : string).      (* fetch() or response.json() rejected *)

End Js.

(** ** Numbers as JavaScript has them

    A finite binary64 value is a rational [m * 2^e] with [|m| < 2^53] and
    [e >= -1074]; every arithmetic operation returns the double nearest to
    the exact result, ties going to the even significand, and overflows to
    an infinity (here [None]) from [2^1024] on. *)

Module Binary64.

(** [x * 2^k] *)
Definition scale (x : Q) (k : Z) : Q :=
  if 0 <=? k then (x * inject_Z (2 ^ k))%Q else (x / inject_Z (2 ^ (- k)))%Q.

(** The integer part of [log2 x], for [x > 0]. *)
Definition ilog2 (x : Q) : Z :=
  let t := Z.log2 (Qnum x) - Z.log2 (Zpos (Qden x)) in
  if Qle_bool (scale 1 t) x then t else t - 1.

(** The nearest integer, ties to even. *)
Definition nearest_even (t : Q) : Z :=
  let q := Qfloor t in
  match (t - inject_Z q ?= 1 # 2)%Q with
  | Lt => q
  | Gt => q + 1
  | Eq => if Z.even q then q else q + 1
  end.

(** The double nearest to [x > 0], were the exponent unbounded above: 53
    significant bits, or fewer below [2^-1022] (subnormals). *)
Definition round_pos (x : Q) : Q :=
  let e := Z.max (ilog2 x - 52) (-1074) in
  scale (inject_Z (nearest_even (scale x (- e)))) e.

(** The double an exact result [x] is rounded to; [None] for an infinity. *)
Definition round (x : Q) : option Q :=
  let r := match (x ?= 0)%Q with
           | Eq => 0%Q
           | Gt => round_pos x
           | Lt => (- round_pos (- x))%Q
           end in
  if Qle_bool (scale 1 1024) r || Qle_bool r (- scale 1 1024) then None
  else Some r.

(** [Math.floor(nowMs / 1000 + expiresIn)] as JavaScript evaluates it: both
    operands are Numbers, the quotient is rounded, the sum is rounded, and
    the floor of a double is exact. *)
Definition floor_seconds (nowMs expiresIn : Z) : option Z :=
  match round (inject_Z nowMs), round (inject_Z expiresIn) with
  | Some n, Some e =>
      match round (n / inject_Z 1000) with
      | Some d =>
          match round (d + e) with
          | Some s => Some (Qfloor s)
          | None => None
          end
      | None => None
      end
  | _, _ => None
  end.

(** Clocks and lifetimes for which no rounding error reaches the integer
    part: a clock from the epoch on whose seconds, alone and with the
    lifetime added, stay below [2^42]. *)
Definition exact_range (nowMs expiresIn : Z) : Prop :=
  0 <= nowMs /\ nowMs / 1000 < 2 ^ 42
  /\ 0 <= nowMs / 1000 + expiresIn < 2 ^ 42.

(** The same expression through the Standard Library's reference
    implementation of IEEE 754 arithmetic ([SpecFloat], precision 53,
    exponents up to 1024), against which [round] is checked below. *)
Definition of_Z (n : Z) : spec_float := binary_normalize 53 1024 n 0 false.

Definition to_Q (f : spec_float) : option Q :=
  match f with
  | S754_zero _ => Some 0%Q
  | S754_finite sign m e =>
      Some (scale (inject_Z (if sign then Zneg m else Zpos m)) e)
  | S754_infinity _ | S754_nan => None
  end.

Definition reference_floor_seconds (nowMs expiresIn : Z) : option Z :=
  option_map Qfloor
    (to_Q (SFadd 53 1024 (SFdiv 53 1024 (of_Z nowMs) (of_Z 1000))
                 (of_Z expiresIn))).

End Binary64.

(** The literal type ["RefreshAccessTokenError"] of the [error] property. *)
Inductive ErrorTag : Type := RefreshAccessTokenError.

(** ** Data *)

Module User.
Record t : Type := mk
  { id : option string;
    name : option string;
    email : option string;
    image : option string }.
End User.

Module Profile.
Record t : Type := mk
  { name : option string;
    email : option string }.
End Profile.

(** The OAuth account handed to [jwt] on first login; its three credential
    properties are typed as the [JWT] properties that receive them. *)
Module Account.
Record t : Type := mk
  { access_token : string;
    expires_at : Z;
    refresh_token : option string }.
End Account.

(** [interface JWT] (lines 165-172), with the properties the callback reads
    ([sub], [picture], [user]) and the remaining claims, which the object
    spread carries along. *)
Module JWT.
Record t : Type := mk
  { sub : option string;
    picture : option string;
    claims : list (string * string);
    access_token : string;
    expires_at : Z;
    refresh_token : option string;
    user : option User.t;
    error : option ErrorTag }.
End JWT.

(** [interface Session] (lines 254-258): the framework's [user] and
    [expires], whatever other properties the object has, and [error]. *)
Module Session.
Record t : Type := mk
  { user : option User.t;
    expires : string;
    rest : list (string * string);
    error : option ErrorTag }.

(** [session.error = "RefreshAccessTokenError"] *)
Definition set_error (s : t) : t :=
  mk (user s) (expires s) (rest s) (Some RefreshAccessTokenError).
End Session.

(** The adapter user passed to the database [session] callback. *)
Module AdapterUser.
Record t : Type := mk { id : string }.
End AdapterUser.

(** Modelled from the spec: the row type of [prisma.account] (the Prisma
    schema is not part of the source).  Section 3 of the spec gives the
    tuple: access credential, expiry in seconds, optional refresh
    credential ([None] for the [null] of an empty column); the callback
    reads [userId], [provider] and [providerAccountId] as keys. *)
Module Row.
Record t : Type := mk
  { userId : string;
    provider : string;
    providerAccountId : string;
    access_token : string;
    expires_at : Z;
    refresh_token : option string }.
End Row.

(** Modelled from the spec: the token endpoint's JSON response (section 6):
    [access_token], [expires_in] in seconds, optional [refresh_token]. *)
Module ResponseTokens.
Record t : Type := mk
  { access_token : string;
    expires_in : Z;
    refresh_token : option string }.
End ResponseTokens.

(** The request of [fetch("https://oauth2.googleapis.com/token", ...)]. *)
Module TokenRequest.
Record t : Type := mk
  { url : string;
    content_type : string;
    client_id : string;
    client_secret : string;
    grant_type : string;
    refresh_token : option string;
    method : string }.
End TokenRequest.

(** [process.env] *)
Record Env : Type := mkEnv
  { AUTH_GOOGLE_ID : string;
    AUTH_GOOGLE_SECRET : string }.

(** What one exchange with the token endpoint yields: [fetch] or
    [response.json()] rejects, or a body arrives with [response.ok] false,
    or with [response.ok] true. *)
Inductive Exchange : Type :=
| TransportError (reason : string)
| NonSuccess (body : string)
| Success (tokens : ResponseTokens.t).

(** The identity provider: its answer to a request and the milliseconds the
    exchange takes. *)
Record Provider : Type := mkProvider
  { respond : TokenRequest.t -> Exchange;
    latency : TokenRequest.t -> Z }.

(** ** The world the callbacks run in *)

Record World : Type := mkWorld
  { clock : Z;                                  (* Date.now(), milliseconds *)
    requests : list TokenRequest.t;             (* outbound calls, oldest first *)
    console : list (string * Js.thrown);        (* console.error lines *)
    accounts : list Row.t }.                    (* the prisma account table *)

Inductive Completion (A : Type) : Type :=
| Returned (a : A)
| Threw (e : Js.thrown).
Arguments Returned {A} a.
Arguments Threw {A} e.

Definition M (A : Type) : Type := World -> Completion A * World.

Definition ret {A : Type} (a : A) : M A := fun w => (Returned a, w).

Definition bind {A B : Type} (m : M A) (k : A -> M B) : M B :=
  fun w =>
    match m w with
    | (Returned a, w') => k a w'
    | (Threw e, w') => (Threw e, w')
    end.

Definition throw {A : Type} (e : Js.thrown) : M A := fun w => (Threw e, w).

(** [try { body } catch (error) { handler }] *)
Definition try_catch {A : Type} (body : M A) (handler : Js.thrown -> M A) : M A :=
  fun w =>
    match body w with
    | (Returned a, w') => (Returned a, w')
    | (Threw e, w') => handler e w'
    end.

Declare Scope callback_scope.
Delimit Scope callback_scope with callback.
Notation "x <- m ;; k" := (bind m (fun x => k))
  (at level 100, m at next level, right associativity) : callback_scope.
Notation "m ;;; k" := (bind m (fun _ => k))
  (at level 100, right associativity) : callback_scope.
Local Open Scope callback_scope.

(** [Date.now()] *)
Definition date_now : M Z := fun w => (Returned (clock w), w).

(** [console.error(label, error)] *)
Definition console_error (label : string) (e : Js.thrown) : M unit :=
  fun w =>
    (Returned tt,
     mkWorld (clock w) (requests w) (console w ++ [(label, e)]) (accounts w)).

(** [await fetch(...)] followed by [await response.json()]: one outbound
    call, after which the clock has advanced by the exchange's latency. *)
Definition fetch (p : Provider) (req : TokenRequest.t) : M Exchange :=
  fun w =>
    (Returned (respond p req),
     mkWorld (clock w + latency p req) (requests w ++ [req]) (console w)
             (accounts w)).

(** The rest of the try block's head: a rejection is thrown,
    [if (!response.ok) throw responseTokens], else the tokens. *)
Definition response_tokens (x : Exchange) : M ResponseTokens.t :=
  match x with
  | TransportError reason => throw (Js.Rejection reason)
  | NonSuccess body => throw (Js.Payload body)
  | Success tokens => ret tokens
  end.

(** The body is [new URLSearchParams({ ..., refresh_token })]: whatever
    value the callback passes for [refresh_token] is posted as a string. *)
Definition token_request (env : Env) (refresh : option string) : TokenRequest.t :=
  TokenRequest.mk "https://oauth2.googleapis.com/token"
                  "application/x-www-form-urlencoded"
                  (AUTH_GOOGLE_ID env) (AUTH_GOOGLE_SECRET env)
                  "refresh_token" (Some (Js.to_param refresh)) "POST".

(** ** JWT strategy: the [jwt] callback (lines 88-147) *)

Definition userProfile (token : JWT.t) (profile : option Profile.t) : User.t :=
  User.mk (JWT.sub token)
          (match profile with Some p => Profile.name p | None => None end)
          (match profile with Some p => Profile.email p | None => None end)
          (JWT.picture token).

(** [{ ...token, access_token, expires_at, refresh_token }] *)
Definition refreshed (token : JWT.t) (access : string) (expires : Z)
    (refresh : option string) : JWT.t :=
  JWT.mk (JWT.sub token) (JWT.picture token) (JWT.claims token)
         access expires refresh (JWT.user token) (JWT.error token).

(** [{ ...token, error: "RefreshAccessTokenError" }] *)
Definition flagged (token : JWT.t) : JWT.t :=
  JWT.mk (JWT.sub token) (JWT.picture token) (JWT.claims token)
         (JWT.access_token token) (JWT.expires_at token)
         (JWT.refresh_token token) (JWT.user token)
         (Some RefreshAccessTokenError).

Definition jwt (env : Env) (p : Provider) (token : JWT.t)
    (account : option Account.t) (profile : option Profile.t) : M JWT.t :=
  match account with
  | Some a =>
      ret (JWT.mk None None []
                  (Account.access_token a) (Account.expires_at a)
                  (Account.refresh_token a)
                  (Some (userProfile token profile)) None)
  | None =>
      now <- date_now ;;
      if now <? JWT.expires_at token * 1000 then ret token
      else if negb (Js.truthy (JWT.refresh_token token))
      then throw (Js.Error "Missing refresh token")
      else
        try_catch
          (response <- fetch p (token_request env (JWT.refresh_token token)) ;;
           responseTokens <- response_tokens response ;;
           now' <- date_now ;;
           ret (refreshed token
                  (ResponseTokens.access_token responseTokens)
                  (Js.floor_seconds now' (ResponseTokens.expires_in responseTokens))
                  (Js.nullish (ResponseTokens.refresh_token responseTokens)
                              (JWT.refresh_token token))))
          (fun error =>
             console_error "Error refreshing access token" error ;;;
             ret (flagged token))
  end.

(** The [session] callback of the JWT strategy (lines 148-154). *)
Definition jwt_session (session : Session.t) (token : JWT.t) : M Session.t :=
  match JWT.user token with
  | Some u => ret (Session.mk (Some u) (Session.expires session)
                              (Session.rest session) (Session.error session))
  | None => ret session
  end.

(** ** Database strategy: the [session] callback (lines 203-250) *)

(** The rows selected by [where: { userId, provider }], in table order. *)
Definition where_user (userId provider : string) (rows : list Row.t) : list Row.t :=
  filter (fun r => String.eqb (Row.userId r) userId
                   && String.eqb (Row.provider r) provider) rows.

(** [prisma.account.findMany({ where: { userId, provider } })] *)
Definition findMany (userId provider : string) : M (list Row.t) :=
  fun w => (Returned (where_user userId provider (accounts w)), w).

Definition row_is (provider providerAccountId : string) (r : Row.t) : bool :=
  String.eqb (Row.provider r) provider
  && String.eqb (Row.providerAccountId r) providerAccountId.

(** The [data] of the update applied to one row. *)
Definition set_tokens (access : string) (expires : Z) (refresh : option string)
    (r : Row.t) : Row.t :=
  Row.mk (Row.userId r) (Row.provider r) (Row.providerAccountId r)
         access expires refresh.

(** The row with the unique key [provider_providerAccountId] gets the new
    data; [None] when no row has that key. *)
Fixpoint update_row (provider providerAccountId : string)
    (change : Row.t -> Row.t) (rows : list Row.t) : option (list Row.t) :=
  match rows with
  | [] => None
  | r :: rest =>
      if row_is provider providerAccountId r then Some (change r :: rest)
      else match update_row provider providerAccountId change rest with
           | Some rest' => Some (r :: rest')
           | None => None
           end
  end.

(** [prisma.account.update({ data, where: { provider_providerAccountId } })];
    Prisma rejects when the record to update does not exist. *)
Definition account_update (provider providerAccountId : string)
    (change : Row.t -> Row.t) : M unit :=
  fun w =>
    match update_row provider providerAccountId change (accounts w) with
    | Some rows => (Returned tt, mkWorld (clock w) (requests w) (console w) rows)
    | None => (Threw (Js.Error "Record to update not found."), w)
    end.

Definition session (env : Env) (p : Provider) (session : Session.t)
    (user : AdapterUser.t) : M Session.t :=
  found <- findMany (AdapterUser.id user) "google" ;;
  match found with
  | [] =>
      throw (Js.TypeError
               "Cannot read properties of undefined (reading 'expires_at')")
  | googleAccount :: _ =>
      now <- date_now ;;
      if Row.expires_at googleAccount * 1000 <? now then
        try_catch
          (response <- fetch p (token_request env (Row.refresh_token googleAccount)) ;;
           responseTokens <- response_tokens response ;;
           now' <- date_now ;;
           account_update "google" (Row.providerAccountId googleAccount)
             (set_tokens
                (ResponseTokens.access_token responseTokens)
                (Js.floor_seconds now' (ResponseTokens.expires_in responseTokens))
                (Js.nullish (ResponseTokens.refresh_token responseTokens)
                            (Row.refresh_token googleAccount))) ;;;
           ret session)
          (fun error =>
             console_error "Error refreshing access token" error ;;;
             ret (Session.set_error session))
      else ret session
  end.

(** ** Reading the spec's vocabulary off the model *)

(** The spec's [now]: the instant of the materialization in whole seconds. *)
Definition now (w : World) : Z := clock w / 1000.

(** The world once the exchange for [req] has come back. *)
Definition exchanged (p : Provider) (req : TokenRequest.t) (w : World) : World :=
  mkWorld (clock w + latency p req) (requests w ++ [req]) (console w) (accounts w).

(** The world after the catch block has logged [e]. *)
Definition logged (e : Js.thrown) (w : World) : World :=
  mkWorld (clock w) (requests w)
          (console w ++ [("Error refreshing access token", e)]) (accounts w).

(** What the catch block receives when the exchange did not succeed. *)
Definition failure (x : Exchange) : option Js.thrown :=
  match x with
  | TransportError reason => Some (Js.Rejection reason)
  | NonSuccess body => Some (Js.Payload body)
  | Success _ => None
  end.

(** The branch an evaluation takes. *)
Inductive Path : Type :=
| Bootstrap          (* first login: [account] is given *)
| Reuse              (* the stored access token is still valid *)
| MissingRefresh     (* expired, and the guard on [refresh_token] fires *)
| Refresh            (* expired, the exchange is made *)
| NoAccount.         (* database strategy: no row for the user *)

Definition jwt_path (token : JWT.t) (account : option Account.t) (w : World) : Path :=
  match account with
  | Some _ => Bootstrap
  | None =>
      if clock w <? JWT.expires_at token * 1000 then Reuse
      else if Js.truthy (JWT.refresh_token token) then Refresh
      else MissingRefresh
  end.

Definition session_path (user : AdapterUser.t) (w : World) : Path :=
  match where_user (AdapterUser.id user) "google" (accounts w) with
  | [] => NoAccount
  | googleAccount :: _ =>
      if Row.expires_at googleAccount * 1000 <? clock w then Refresh else Reuse
  end.

(** Outbound calls to the token endpoint on each branch. *)
Definition calls_on (path : Path) : nat :=
  match path with
  | Refresh => 1%nat
  | Bootstrap | Reuse | MissingRefresh | NoAccount => 0%nat
  end.

(** The compound key [provider_providerAccountId] is unique in the table. *)
Fixpoint unique_keys (rows : list Row.t) : bool :=
  match rows with
  | [] => true
  | r :: rest =>
      negb (existsb (row_is (Row.provider r) (Row.providerAccountId r)) rest)
      && unique_keys rest
  end.

(** ** Client side: the effect of [HomePage] (lines 285-295) *)

(** What the effect may call. *)
Inductive ClientCall : Type := SignIn.

(** The body of [useEffect], run on the value of [useSession().data]:
    [if (session?.error === "RefreshAccessTokenError") signIn()]. *)
Definition HomePage_effect (session : option Session.t) : list ClientCall :=
  match session with
  | Some s =>
      match Session.error s with
      | Some RefreshAccessTokenError => [SignIn]
      | None => []
      end
  | None => []
  end.

(** ** Successive session reads *)

(** [n] reads of the session under the JWT strategy with no sign-in in
    between: every read hands [jwt] the token the read before it returned. *)
Fixpoint jwt_reads (env : Env) (p : Provider) (n : nat) (token : JWT.t) : M JWT.t :=
  match n with
  | O => ret token
  | S n' => token' <- jwt env p token None None ;; jwt_reads env p n' token'
  end.

(** The columns of a row that identify it. *)
Definition row_keys (r : Row.t) : string * string * string :=
  (Row.userId r, Row.provider r, Row.providerAccountId r).

(** ** Scenarios (section 8 of the spec) *)

Module Scenario.

Definition env : Env := mkEnv "google-client-id" "google-client-secret".

Definition ada : User.t :=
  User.mk (Some "u1") (Some "Ada") (Some "ada@example.org") None.

(** [{access="A1", expiry=100, refresh="R1"}] *)
Definition token_A1 : JWT.t :=
  JWT.mk (Some "u1") None [("iss", "example")] "A1" 100 (Some "R1")
         (Some ada) None.

(** The same tuple as a failed materialization left it. *)
Definition token_A1_flagged : JWT.t := flagged token_A1.

(** [{access="A1", expiry=100, refresh=absent}] *)
Definition token_A1_no_refresh : JWT.t :=
  JWT.mk (Some "u1") None [("iss", "example")] "A1" 100 None (Some ada) None.

Definition account_A0 : Account.t := Account.mk "A0" 90 (Some "R0").

(** The exchange returns [{access_token="A2", expires_in=3600}]. *)
Definition granting : Provider :=
  mkProvider (fun _ => Success (ResponseTokens.mk "A2" 3600 None))
             (fun _ => 0).

(** The same, with a rotated refresh token, 400 ms later. *)
Definition rotating : Provider :=
  mkProvider (fun _ => Success (ResponseTokens.mk "A2" 3600 (Some "R2")))
             (fun _ => 400).

(** The exchange returns HTTP 400. *)
Definition refusing : Provider :=
  mkProvider (fun _ => NonSuccess "invalid_grant") (fun _ => 120).

Definition unreachable : Provider :=
  mkProvider (fun _ => TransportError "fetch failed") (fun _ => 30000).

Definition row_u1 : Row.t := Row.mk "u1" "google" "g-1" "A1" 100 (Some "R1").
Definition row_u2 : Row.t := Row.mk "u2" "google" "g-2" "B1" 900 None.
Definition row_u1_github : Row.t := Row.mk "u1" "github" "h-1" "C1" 100 None.

Definition table : list Row.t := [row_u2; row_u1_github; row_u1].

(** The world at [seconds] since the epoch (plus 250 ms). *)
Definition at_time (seconds : Z) : World :=
  mkWorld (seconds * 1000 + 250) [] [] table.

(** The very millisecond at which the stored expiry of 100 s is reached. *)
Definition on_expiry : World := mkWorld 100000 [] [] table.

Definition u1 : AdapterUser.t := AdapterUser.mk "u1".
Definition u3 : AdapterUser.t := AdapterUser.mk "u3".

Definition view : Session.t :=
  Session.mk (Some ada) "2030-01-01T00:00:00.000Z" [] None.

(** A provider that answers with an empty rotated refresh token. *)
Definition blanking : Provider :=
  mkProvider (fun _ => Success (ResponseTokens.mk "A2" 3600 (Some "")))
             (fun _ => 0).

(** A second, older google account of the same user, and a row without a
    refresh token. *)
Definition row_u1_second : Row.t := Row.mk "u1" "google" "g-9" "D1" 10 (Some "R9").
Definition row_u4 : Row.t := Row.mk "u4" "google" "g-4" "E1" 100 None.

Definition wide_table : list Row.t := [row_u2; row_u1; row_u4; row_u1_second].

Definition wide_at_time (seconds : Z) : World :=
  mkWorld (seconds * 1000 + 250) [] [] wide_table.

Definition u4 : AdapterUser.t := AdapterUser.mk "u4".

(** What a failed refresh followed by a successful one leaves behind. *)
Definition token_A2_flagged : JWT.t :=
  refreshed token_A1_flagged "A2" 3750 (Some "R1").

(** The tuple of [row_u4] held in a token: expired at 100, no refresh
    token. *)
Definition token_E1_no_refresh : JWT.t :=
  JWT.mk (Some "u4") None [] "E1" 100 None None None.

End Scenario.

(** ** Arithmetic of the clock *)

Lemma floor_seconds_spec (nowMs expiresIn : Z) :
  Js.floor_seconds nowMs expiresIn = nowMs / 1000 + expiresIn.
Proof.
  unfold Js.floor_seconds, Qfloor, Qplus, Qdiv, Qmult, Qinv, inject_Z. simpl.
  replace (nowMs * 1 * 1 + expiresIn * 1000) with (nowMs + expiresIn * 1000) by lia.
  apply Z.div_add. lia.
Qed.

Lemma now_before (w : World) (expiry : Z) :
  now w < expiry <-> clock w < expiry * 1000.
Proof.
  unfold now. pose proof (Z.div_mod (clock w) 1000 ltac:(lia)).
  pose proof (Z.mod_pos_bound (clock w) 1000 ltac:(lia)). lia.
Qed.

Lemma now_reached (w : World) (expiry : Z) :
  expiry <= now w <-> expiry * 1000 <= clock w.
Proof. pose proof (now_before w expiry). lia. Qed.


(** ** Binary64 rounding *)

Section Binary64Facts.
Import Binary64.

Lemma pow2_Qpos (k : Z) : 0 <= k -> (0 < inject_Z (2 ^ k))%Q.
Proof.
  intros H. change (inject_Z 0 < inject_Z (2 ^ k))%Q.
  rewrite <- Zlt_Qlt. apply Z.pow_pos_nonneg; lia.
Qed.

Lemma pow2_Qnonzero (k : Z) : 0 <= k -> ~ (inject_Z (2 ^ k) == 0)%Q.
Proof.
  intros H Hz. pose proof (pow2_Qpos k H) as Hp. rewrite Hz in Hp.
  now apply Qlt_irrefl in Hp.
Qed.

Lemma scale_nonneg (x : Q) (k : Z) :
  0 <= k -> (scale x k == x * inject_Z (2 ^ k))%Q.
Proof. intros H. unfold scale. apply Z.leb_le in H. now rewrite H. Qed.

Lemma scale_neg (x : Q) (k : Z) :
  0 <= k -> (scale x (- k) == x / inject_Z (2 ^ k))%Q.
Proof.
  intros H. unfold scale. destruct (Z.leb_spec 0 (- k)) as [H'|H'].
  - assert (k = 0) as -> by lia. simpl. field.
  - now rewrite Z.opp_involutive.
Qed.

Lemma scale_le (x y : Q) (k : Z) : (x <= y)%Q -> (scale x k <= scale y k)%Q.
Proof.
  intros H. unfold scale. destruct (Z.leb_spec 0 k) as [Hk|Hk].
  - apply Qmult_le_compat_r; [exact H|]. apply Qlt_le_weak, pow2_Qpos, Hk.
  - unfold Qdiv. apply Qmult_le_compat_r; [exact H|].
    apply Qlt_le_weak, Qinv_lt_0_compat, pow2_Qpos. lia.
Qed.

Lemma scale_grid (j c k : Z) :
  0 <= c <= k ->
  (scale (inject_Z j / inject_Z (2 ^ c)) k == inject_Z (j * 2 ^ (k - c)))%Q.
Proof.
  intros [Hc Hk]. rewrite scale_nonneg by lia.
  replace (2 ^ k) with (2 ^ (k - c) * 2 ^ c)
    by (rewrite <- Z.pow_add_r by lia; f_equal; lia).
  rewrite !inject_Z_mult. field. now apply pow2_Qnonzero.
Qed.

Lemma scale_grid_back (j c k : Z) :
  0 <= c <= k ->
  (scale (inject_Z (j * 2 ^ (k - c))) (- k) == inject_Z j / inject_Z (2 ^ c))%Q.
Proof.
  intros [Hc Hk]. rewrite scale_neg by lia.
  replace (2 ^ k) with (2 ^ (k - c) * 2 ^ c)
    by (rewrite <- Z.pow_add_r by lia; f_equal; lia).
  rewrite !inject_Z_mult. field. split; apply pow2_Qnonzero; lia.
Qed.

Lemma nearest_even_ge (t : Q) (g : Z) :
  (inject_Z g <= t)%Q -> g <= nearest_even t.
Proof.
  intros H. apply Qfloor_resp_le in H. rewrite Qfloor_Z in H.
  unfold nearest_even. destruct (_ ?= _)%Q; [destruct (Z.even _)| |]; lia.
Qed.

Lemma nearest_even_le (t : Q) (g : Z) :
  (t <= inject_Z g)%Q -> nearest_even t <= g.
Proof.
  intros H. pose proof (Qfloor_le t) as Hf.
  assert (Qfloor t <= g) as Hq.
  { rewrite Zle_Qle. now apply Qle_trans with t. }
  assert ((inject_Z (Qfloor t) < t)%Q -> Qfloor t + 1 <= g) as Hup.
  { intros Hpos. destruct (Z.eq_dec (Qfloor t) g) as [Heq|]; [|lia].
    exfalso. rewrite Heq in Hpos.
    apply (Qlt_irrefl t). now apply Qle_lt_trans with (inject_Z g). }
  assert (forall h, (0 < h)%Q -> (t - inject_Z (Qfloor t) == h \/ h < t - inject_Z (Qfloor t))%Q ->
                    (inject_Z (Qfloor t) < t)%Q) as Hfrac.
  { intros h Hh Hcase.
    assert (0 < t - inject_Z (Qfloor t))%Q as Hd.
    { destruct Hcase as [-> | Hlt]; [exact Hh | now apply Qlt_trans with h]. }
    apply (Qplus_lt_l _ _ (- inject_Z (Qfloor t))).
    setoid_replace (inject_Z (Qfloor t) + - inject_Z (Qfloor t))%Q with 0%Q by ring.
    exact Hd. }
  unfold nearest_even.
  destruct (Qcompare_spec (t - inject_Z (Qfloor t)) (1 # 2)) as [He|Hl|Hg].
  - destruct (Z.even _); [exact Hq|]. apply Hup, (Hfrac (1 # 2)%Q); [reflexivity | now left].
  - exact Hq.
  - apply Hup, (Hfrac (1 # 2)%Q); [reflexivity | now right].
Qed.

Lemma ilog2_below (x : Q) (u : Z) :
  0 <= u -> (0 < x)%Q -> (x < inject_Z (2 ^ u))%Q -> ilog2 x <= u - 1.
Proof.
  intros Hu Hx Hlt. destruct x as [n d].
  assert (0 < n) as Hn.
  { unfold Qlt in Hx. simpl in Hx. lia. }
  assert (n < 2 ^ u * Zpos d) as Hnd.
  { unfold Qlt in Hlt. simpl in Hlt. lia. }
  pose proof (Z.log2_spec n Hn) as [Hn1 Hn2].
  pose proof (Z.log2_spec (Zpos d) ltac:(lia)) as [Hd1 Hd2].
  pose proof (Z.log2_nonneg n) as Hln. pose proof (Z.log2_nonneg (Zpos d)) as Hld.
  set (ln := Z.log2 n) in *. set (ld := Z.log2 (Zpos d)) in *.
  assert (ln - ld <= u) as Ht.
  { destruct (Z_le_gt_dec (ln - ld) u) as [|Hgt]; [assumption|exfalso].
    assert (2 ^ (u + (ld + 1)) <= 2 ^ ln) as Hp
        by (apply Z.pow_le_mono_r; lia).
    rewrite Z.pow_add_r in Hp by lia.
    assert (2 ^ u * Z.pos d < 2 ^ u * 2 ^ (ld + 1)); [|lia].
    apply Z.mul_lt_mono_pos_l; [apply Z.pow_pos_nonneg; lia | lia]. }
  unfold ilog2. cbn [Qnum Qden]. fold ln ld.
  destruct (Qle_bool (scale 1 (ln - ld)) (n # d)) eqn:Hb; [|lia].
  destruct (Z.eq_dec (ln - ld) u) as [Heq|]; [exfalso|lia].
  apply Qle_bool_iff in Hb. rewrite Heq, scale_nonneg in Hb by lia.
  apply (Qlt_irrefl (n # d)). apply Qlt_le_trans with (inject_Z (2 ^ u)); [exact Hlt|].
  now rewrite Qmult_1_l in Hb.
Qed.

(** Below [2^(53-c)] every multiple of [2^-c] is on the grid of the
    doubles around [x], so rounding [x] cannot cross it. *)
Lemma round_pos_between (c j : Z) (x : Q) :
  0 <= c <= 53 -> (0 < x)%Q -> (x < inject_Z (2 ^ (53 - c)))%Q ->
  ((inject_Z j / inject_Z (2 ^ c) <= x)%Q ->
   (inject_Z j / inject_Z (2 ^ c) <= round_pos x)%Q)
  /\ ((x <= inject_Z j / inject_Z (2 ^ c))%Q ->
      (round_pos x <= inject_Z j / inject_Z (2 ^ c))%Q).
Proof.
  intros Hc Hx Hlt.
  pose proof (ilog2_below x (53 - c) ltac:(lia) Hx Hlt) as Hl.
  unfold round_pos.
  set (e := Z.max (ilog2 x - 52) (-1074)).
  assert (exists k, e = - k /\ c <= k) as (k & -> & Hk).
  { exists (- e). split; lia. }
  rewrite Z.opp_involutive.
  split; intros H.
  - apply (scale_le _ _ k) in H. rewrite scale_grid in H by lia.
    apply nearest_even_ge in H. rewrite Zle_Qle in H.
    apply (scale_le _ _ (- k)) in H.
    now rewrite scale_grid_back in H by lia.
  - apply (scale_le _ _ k) in H. rewrite scale_grid in H by lia.
    apply nearest_even_le in H. rewrite Zle_Qle in H.
    apply (scale_le _ _ (- k)) in H.
    now rewrite scale_grid_back in H by lia.
Qed.

Lemma no_overflow (r : Q) :
  (- inject_Z (2 ^ 53) <= r)%Q -> (r <= inject_Z (2 ^ 53))%Q ->
  Qle_bool (scale 1 1024) r || Qle_bool r (- scale 1 1024) = false.
Proof.
  intros H0 H53.
  assert (inject_Z (2 ^ 53) < scale 1 1024)%Q as Hbig.
  { rewrite scale_nonneg by lia. rewrite Qmult_1_l. rewrite <- Zlt_Qlt.
    apply Z.pow_lt_mono_r; lia. }
  apply orb_false_iff. split.
  - destruct (Qle_bool _ r) eqn:Hb; [exfalso|reflexivity].
    apply Qle_bool_iff in Hb. apply (Qlt_irrefl r).
    apply Qle_lt_trans with (inject_Z (2 ^ 53)); [exact H53|].
    now apply Qlt_le_trans with (scale 1 1024).
  - destruct (Qle_bool r _) eqn:Hb; [exfalso|reflexivity].
    apply Qle_bool_iff in Hb. apply (Qlt_irrefl r).
    apply Qle_lt_trans with (- scale 1 1024)%Q; [exact Hb|].
    apply Qlt_le_trans with (- inject_Z (2 ^ 53))%Q; [|exact H0].
    now apply Qopp_lt_compat.
Qed.

(** Rounding a non-negative real below [2^(53-c)] stays between the
    multiples of [2^-c] around it. *)
Lemma round_between (c lo hi : Z) (x : Q) :
  0 <= c <= 53 -> 0 <= lo -> hi <= 2 ^ 53 ->
  (inject_Z lo / inject_Z (2 ^ c) <= x)%Q ->
  (x <= inject_Z hi / inject_Z (2 ^ c))%Q ->
  (x < inject_Z (2 ^ (53 - c)))%Q ->
  exists r,
    round x = Some r
    /\ (inject_Z lo / inject_Z (2 ^ c) <= r)%Q
    /\ (r <= inject_Z hi / inject_Z (2 ^ c))%Q.
Proof.
  intros Hc Hlo Hhi Ha Hb Hlt.
  assert (0 <= inject_Z lo / inject_Z (2 ^ c))%Q as Hlo'.
  { apply Qle_shift_div_l; [apply pow2_Qpos; lia|]. rewrite Qmult_0_l.
    change (inject_Z 0 <= inject_Z lo)%Q. now rewrite <- Zle_Qle. }
  assert (inject_Z hi / inject_Z (2 ^ c) <= inject_Z (2 ^ 53))%Q as Hhi'.
  { apply Qle_shift_div_r; [apply pow2_Qpos; lia|].
    rewrite <- inject_Z_mult, <- Zle_Qle.
    assert (1 <= 2 ^ c) by (apply (Z.pow_le_mono_r 2 0 c); lia).
    assert (0 < 2 ^ 53) by (apply Z.pow_pos_nonneg; lia). nia. }
  unfold round. destruct (Qcompare_spec x 0) as [Hz|Hneg|Hpos].
  - exists 0%Q. rewrite no_overflow.
    + split; [reflexivity|]. split; [now rewrite <- Hz | now rewrite <- Hz].
    + apply (Qopp_le_compat 0 (inject_Z (2 ^ 53))).
      apply Qlt_le_weak. now apply pow2_Qpos.
    + apply Qlt_le_weak. now apply pow2_Qpos.
  - exfalso. apply (Qlt_irrefl x). apply Qlt_le_trans with 0%Q; [exact Hneg|].
    now apply Qle_trans with (inject_Z lo / inject_Z (2 ^ c))%Q.
  - destruct (round_pos_between c lo x Hc Hpos Hlt) as [Hr1 _].
    destruct (round_pos_between c hi x Hc Hpos Hlt) as [_ Hr2].
    exists (round_pos x). rewrite no_overflow.
    + auto.
    + apply Qle_trans with 0%Q.
      * apply (Qopp_le_compat 0 (inject_Z (2 ^ 53))).
        apply Qlt_le_weak. now apply pow2_Qpos.
      * apply Qle_trans with (inject_Z lo / inject_Z (2 ^ c))%Q; auto.
    + apply Qle_trans with (inject_Z hi / inject_Z (2 ^ c))%Q; auto.
Qed.

Lemma Qdiv_le_Z (a b d1 d2 : Z) :
  0 < d1 -> 0 < d2 -> a * d2 <= b * d1 ->
  (inject_Z a / inject_Z d1 <= inject_Z b / inject_Z d2)%Q.
Proof.
  intros H1 H2 H.
  assert (0 < inject_Z d1)%Q as Hd1
      by (change (inject_Z 0 < inject_Z d1)%Q; now rewrite <- Zlt_Qlt).
  assert (0 < inject_Z d2)%Q as Hd2
      by (change (inject_Z 0 < inject_Z d2)%Q; now rewrite <- Zlt_Qlt).
  apply Qle_shift_div_r; [exact Hd1|].
  setoid_replace (inject_Z b / inject_Z d2 * inject_Z d1)%Q
    with (inject_Z b * inject_Z d1 / inject_Z d2)%Q.
  2:{ field. intros Hz. rewrite Hz in Hd2. now apply Qlt_irrefl in Hd2. }
  apply Qle_shift_div_l; [exact Hd2|].
  now rewrite <- !inject_Z_mult, <- Zle_Qle.
Qed.

Lemma Qdiv_lt_Z (a b d1 d2 : Z) :
  0 < d1 -> 0 < d2 -> a * d2 < b * d1 ->
  (inject_Z a / inject_Z d1 < inject_Z b / inject_Z d2)%Q.
Proof.
  intros H1 H2 H.
  assert (0 < inject_Z d1)%Q as Hd1
      by (change (inject_Z 0 < inject_Z d1)%Q; now rewrite <- Zlt_Qlt).
  assert (0 < inject_Z d2)%Q as Hd2
      by (change (inject_Z 0 < inject_Z d2)%Q; now rewrite <- Zlt_Qlt).
  apply Qlt_shift_div_r; [exact Hd1|].
  setoid_replace (inject_Z b / inject_Z d2 * inject_Z d1)%Q
    with (inject_Z b * inject_Z d1 / inject_Z d2)%Q.
  2:{ field. intros Hz. rewrite Hz in Hd2. now apply Qlt_irrefl in Hd2. }
  apply Qlt_shift_div_l; [exact Hd2|].
  now rewrite <- !inject_Z_mult, <- Zlt_Qlt.
Qed.

Lemma Qdiv_1_Z (a : Z) : (inject_Z a / inject_Z 1 == inject_Z a)%Q.
Proof. field. Qed.

(** An integer below [2^53] in magnitude is a double. *)
Lemma round_integer (n : Z) :
  - 2 ^ 53 < n < 2 ^ 53 ->
  exists r, round (inject_Z n) = Some r /\ (r == inject_Z n)%Q.
Proof.
  intros Hn.
  assert (forall m, 0 < m < 2 ^ 53 -> (round_pos (inject_Z m) == inject_Z m)%Q)
    as Hpos.
  { intros m Hm.
    destruct (round_pos_between 0 m (inject_Z m)) as [Hlo Hhi].
    - lia.
    - change (inject_Z 0 < inject_Z m)%Q. rewrite <- Zlt_Qlt. lia.
    - rewrite <- Zlt_Qlt. now rewrite Z.sub_0_r.
    - change (2 ^ 0) with 1 in Hlo, Hhi. rewrite Qdiv_1_Z in Hlo, Hhi.
      apply Qle_antisym; [apply Hhi | apply Hlo]; apply Qle_refl. }
  unfold round. destruct (Qcompare_spec (inject_Z n) 0) as [Hz|Hneg|Hgt].
  - exists 0%Q. rewrite no_overflow.
    + split; [reflexivity | now symmetry].
    + apply (Qopp_le_compat 0 (inject_Z (2 ^ 53))).
      apply Qlt_le_weak. now apply pow2_Qpos.
    + apply Qlt_le_weak. now apply pow2_Qpos.
  - change (inject_Z n < inject_Z 0)%Q in Hneg. rewrite <- Zlt_Qlt in Hneg.
    assert (round_pos (- inject_Z n) == inject_Z (- n))%Q as Hr.
    { rewrite <- inject_Z_opp. apply Hpos. lia. }
    exists (- round_pos (- inject_Z n))%Q. rewrite no_overflow.
    + split; [reflexivity|]. rewrite Hr, inject_Z_opp. ring.
    + rewrite Hr. apply Qopp_le_compat. rewrite <- Zle_Qle. lia.
    + rewrite Hr, <- inject_Z_opp, <- Zle_Qle. lia.
  - change (inject_Z 0 < inject_Z n)%Q in Hgt. rewrite <- Zlt_Qlt in Hgt.
    exists (round_pos (inject_Z n)). rewrite no_overflow.
    + split; [reflexivity|]. apply Hpos. lia.
    + rewrite Hpos by lia. rewrite <- inject_Z_opp, <- Zle_Qle. lia.
    + rewrite Hpos by lia. rewrite <- Zle_Qle. lia.
Qed.

(** Within [exact_range] no rounding error reaches the integer part. *)
Lemma binary64_floor_seconds (nowMs expiresIn : Z) :
  exact_range nowMs expiresIn ->
  floor_seconds nowMs expiresIn = Some (nowMs / 1000 + expiresIn).
Proof.
  intros (Hnow & Hk & Hsum).
  pose proof (Z.div_mod nowMs 1000 ltac:(lia)) as Hdm.
  pose proof (Z.mod_pos_bound nowMs 1000 ltac:(lia)) as Hmod.
  assert (0 <= nowMs / 1000) as Hk0 by (apply Z.div_pos; lia).
  set (k := nowMs / 1000) in *.
  change (2 ^ 42) with 4398046511104 in *.
  destruct (round_integer nowMs) as (n & Hn & Hnq).
  { change (2 ^ 53) with 9007199254740992. lia. }
  destruct (round_integer expiresIn) as (e & He & Heq).
  { change (2 ^ 53) with 9007199254740992. lia. }
  destruct (round_between 10 (k * 2 ^ 10) (k * 2 ^ 10 + 1023)
              (n / inject_Z 1000)%Q) as (d & Hd & Hd1 & Hd2).
  { lia. }
  { change (2 ^ 10) with 1024. lia. }
  { change (2 ^ 10) with 1024. change (2 ^ 53) with 9007199254740992. lia. }
  { rewrite Hnq. apply Qdiv_le_Z; change (2 ^ 10) with 1024; lia. }
  { rewrite Hnq. apply Qdiv_le_Z; change (2 ^ 10) with 1024; lia. }
  { rewrite Hnq. rewrite <- (Qdiv_1_Z (2 ^ (53 - 10))).
    apply Qdiv_lt_Z; change (2 ^ (53 - 10)) with 8796093022208; lia. }
  destruct (round_between 10 ((k + expiresIn) * 2 ^ 10)
              ((k + expiresIn) * 2 ^ 10 + 1023) (d + e)%Q)
    as (s & Hs & Hs1 & Hs2).
  { lia. }
  { change (2 ^ 10) with 1024. lia. }
  { change (2 ^ 10) with 1024. change (2 ^ 53) with 9007199254740992. lia. }
  { rewrite Heq.
    setoid_replace (inject_Z ((k + expiresIn) * 2 ^ 10) / inject_Z (2 ^ 10))%Q
      with (inject_Z (k * 2 ^ 10) / inject_Z (2 ^ 10) + inject_Z expiresIn)%Q.
    - apply Qplus_le_l. exact Hd1.
    - change (2 ^ 10) with 1024. rewrite !inject_Z_mult, !inject_Z_plus. field. }
  { rewrite Heq.
    setoid_replace (inject_Z ((k + expiresIn) * 2 ^ 10 + 1023) / inject_Z (2 ^ 10))%Q
      with (inject_Z (k * 2 ^ 10 + 1023) / inject_Z (2 ^ 10) + inject_Z expiresIn)%Q.
    - apply Qplus_le_l. exact Hd2.
    - change (2 ^ 10) with 1024.
      rewrite !inject_Z_plus, !inject_Z_mult, !inject_Z_plus. field. }
  { apply Qle_lt_trans
      with (inject_Z (k * 2 ^ 10 + 1023) / inject_Z (2 ^ 10) + inject_Z expiresIn)%Q.
    - rewrite Heq. apply Qplus_le_l. exact Hd2.
    - rewrite <- (Qdiv_1_Z expiresIn), <- (Qdiv_1_Z (2 ^ (53 - 10))).
      setoid_replace (inject_Z (k * 2 ^ 10 + 1023) / inject_Z (2 ^ 10)
                      + inject_Z expiresIn / inject_Z 1)%Q
        with (inject_Z (k * 2 ^ 10 + 1023 + expiresIn * 2 ^ 10) / inject_Z (2 ^ 10))%Q.
      + apply Qdiv_lt_Z; change (2 ^ (53 - 10)) with 8796093022208;
          change (2 ^ 10) with 1024; lia.
      + change (2 ^ 10) with 1024.
        rewrite !inject_Z_plus, !inject_Z_mult. field. }
  unfold floor_seconds. rewrite Hn, He, Hd, Hs. f_equal.
  apply Z.le_antisymm.
  - assert (Qfloor s < k + expiresIn + 1); [|lia].
    rewrite Zlt_Qlt. apply Qle_lt_trans with s; [apply Qfloor_le|].
    apply Qle_lt_trans with (1 := Hs2).
    rewrite <- (Qdiv_1_Z (k + expiresIn + 1)).
    apply Qdiv_lt_Z; change (2 ^ 10) with 1024; lia.
  - rewrite <- (Qfloor_Z (k + expiresIn)). apply Qfloor_resp_le.
    apply Qle_trans with (2 := Hs1).
    rewrite <- (Qdiv_1_Z (k + expiresIn)) at 1.
    apply Qdiv_le_Z; change (2 ^ 10) with 1024; lia.
Qed.

End Binary64Facts.

(** On [Binary64.exact_range] the exact floor of [Js.floor_seconds] is the
    number JavaScript computes. *)
Lemma floor_seconds_binary64 (nowMs expiresIn : Z) :
  Binary64.exact_range nowMs expiresIn ->
  Binary64.floor_seconds nowMs expiresIn
  = Some (Js.floor_seconds nowMs expiresIn).
Proof.
  intros H. rewrite floor_seconds_spec. now apply binary64_floor_seconds.
Qed.

(** [Binary64.round] against the Standard Library's IEEE 754 reference:
    quotients, sums and whole expressions, inside and outside the exact
    range. *)
Example binary64_matches_reference :
  option_map Qred (Binary64.round (150999 # 1000))
  = option_map Qred
      (Binary64.to_Q (SFdiv 53 1024 (Binary64.of_Z 150999) (Binary64.of_Z 1000)))
  /\ option_map Qred (Binary64.round (1 # 3))
     = option_map Qred
         (Binary64.to_Q (SFdiv 53 1024 (Binary64.of_Z 1) (Binary64.of_Z 3)))
  /\ option_map Qred (Binary64.round (inject_Z (2 ^ 53 + 1)))
     = option_map Qred (Binary64.to_Q (Binary64.of_Z (2 ^ 53 + 1)))
  /\ option_map Qred (Binary64.round (inject_Z (2 ^ 53 + 3)))
     = option_map Qred (Binary64.to_Q (Binary64.of_Z (2 ^ 53 + 3)))
  /\ Binary64.floor_seconds 1700000000999 3600
     = Binary64.reference_floor_seconds 1700000000999 3600
  /\ Binary64.floor_seconds 150999 (2 ^ 44)
     = Binary64.reference_floor_seconds 150999 (2 ^ 44)
  /\ Binary64.floor_seconds 150999 (2 ^ 52)
     = Binary64.reference_floor_seconds 150999 (2 ^ 52)
  /\ Binary64.floor_seconds 150001 (2 ^ 52 + 2 ^ 51)
     = Binary64.reference_floor_seconds 150001 (2 ^ 52 + 2 ^ 51)
  /\ Binary64.floor_seconds 8640000000000000 (- 86400)
     = Binary64.reference_floor_seconds 8640000000000000 (- 86400).
Proof. vm_compute. repeat split. Qed.

(** Beyond the range the double is one off the exact floor. *)
Example binary64_differs_beyond_range :
  Binary64.floor_seconds 150999 (2 ^ 52) = Some (150 + 2 ^ 52 + 1)
  /\ Js.floor_seconds 150999 (2 ^ 52) = 150 + 2 ^ 52.
Proof. vm_compute. split; reflexivity. Qed.

(** ** The table *)

Lemma where_user_first (uid prov : string) (rows : list Row.t) (g : Row.t)
    (others : list Row.t) :
  where_user uid prov rows = g :: others ->
  exists before after,
    rows = before ++ g :: after
    /\ where_user uid prov before = []
    /\ Row.userId g = uid /\ Row.provider g = prov.
Proof.
  unfold where_user. induction rows as [|r rows IH]; simpl; [discriminate|].
  destruct (String.eqb (Row.userId r) uid && String.eqb (Row.provider r) prov)
    eqn:Hr.
  - intros [= -> _]. apply andb_prop in Hr as [Hu Hp].
    apply String.eqb_eq in Hu, Hp. exists [], rows. auto.
  - intros H. destruct (IH H) as (before & after & -> & Hb & Hu & Hp).
    exists (r :: before), after. simpl. rewrite Hr. auto.
Qed.

Lemma row_is_self (r : Row.t) :
  row_is (Row.provider r) (Row.providerAccountId r) r = true.
Proof. unfold row_is. now rewrite !String.eqb_refl. Qed.

(** A row that is in the table can be updated. *)
Lemma update_row_found (prov pid : string) (change : Row.t -> Row.t)
    (rows : list Row.t) (g : Row.t) :
  In g rows -> row_is prov pid g = true ->
  exists rows', update_row prov pid change rows = Some rows'.
Proof.
  induction rows as [|r rows IH]; simpl; [tauto|].
  intros [-> | Hin] Hg.
  - rewrite Hg. eauto.
  - destruct (row_is prov pid r); [eauto|].
    destruct (IH Hin Hg) as [rows' ->]. eauto.
Qed.

(** With unique keys the update changes the row itself, in place. *)
Lemma update_row_unique (change : Row.t -> Row.t) (before after : list Row.t)
    (g : Row.t) :
  unique_keys (before ++ g :: after) = true ->
  update_row (Row.provider g) (Row.providerAccountId g) change
             (before ++ g :: after)
  = Some (before ++ change g :: after).
Proof.
  induction before as [|r before IH]; simpl.
  - now rewrite row_is_self.
  - intros H. apply andb_prop in H as [Hr Hu].
    destruct (row_is (Row.provider g) (Row.providerAccountId g) r) eqn:Hg.
    + exfalso. apply negb_true_iff in Hr.
      assert (existsb (row_is (Row.provider r) (Row.providerAccountId r))
                      (before ++ g :: after) = true) as Hex; [|congruence].
      apply existsb_exists. exists g. split; [apply in_elt|].
      unfold row_is in *. apply andb_prop in Hg as [Hp Hi].
      apply String.eqb_eq in Hp, Hi. rewrite Hp, Hi. now rewrite !String.eqb_refl.
    + now rewrite (IH Hu).
Qed.

(** The update changes the first row that has the key, where it stands. *)
Lemma update_row_first (prov pid : string) (change : Row.t -> Row.t)
    (rows rows' : list Row.t) :
  update_row prov pid change rows = Some rows' ->
  exists before target after,
    rows = before ++ target :: after
    /\ existsb (row_is prov pid) before = false
    /\ row_is prov pid target = true
    /\ rows' = before ++ change target :: after.
Proof.
  revert rows'. induction rows as [|r rows IH]; intros rows'; simpl; [discriminate|].
  destruct (row_is prov pid r) eqn:Hr.
  - intros [= <-]. exists [], r, rows. auto.
  - destruct (update_row prov pid change rows) as [rest|]; [|discriminate].
    intros [= <-].
    destruct (IH rest eq_refl) as (before & target & after & -> & Hb & Ht & ->).
    exists (r :: before), target, after. simpl. rewrite Hr. auto.
Qed.

(** With unique keys no row before [g] has the key of [g]. *)
Lemma unique_keys_first (before after : list Row.t) (g : Row.t) :
  unique_keys (before ++ g :: after) = true ->
  existsb (row_is (Row.provider g) (Row.providerAccountId g)) before = false.
Proof.
  induction before as [|r before IH]; simpl; [reflexivity|].
  intros H. apply andb_prop in H as [Hr Hu]. rewrite (IH Hu), orb_false_r.
  destruct (row_is (Row.provider g) (Row.providerAccountId g) r) eqn:Hg;
    [exfalso|reflexivity].
  apply negb_true_iff in Hr.
  assert (existsb (row_is (Row.provider r) (Row.providerAccountId r))
                  (before ++ g :: after) = true) as Hex; [|congruence].
  apply existsb_exists. exists g. split; [apply in_elt|].
  unfold row_is in *. apply andb_prop in Hg as [Hp Hi].
  apply String.eqb_eq in Hp, Hi. rewrite Hp, Hi. now rewrite !String.eqb_refl.
Qed.

(** The first row that satisfies a test is determined by the table. *)
Lemma first_match_unique (f : Row.t -> bool) (b1 : list Row.t) (r1 : Row.t)
    (a1 b2 : list Row.t) (r2 : Row.t) (a2 : list Row.t) :
  b1 ++ r1 :: a1 = b2 ++ r2 :: a2 ->
  existsb f b1 = false -> f r1 = true ->
  existsb f b2 = false -> f r2 = true ->
  r1 = r2 /\ b1 = b2 /\ a1 = a2.
Proof.
  revert b2. induction b1 as [|x b1 IH]; intros [|y b2]; simpl.
  - now intros [= -> ->].
  - intros [= <- _] _ H1 H2 _. apply orb_false_iff in H2 as [H2 _]. congruence.
  - intros [= -> _] H1 _ _ H2. apply orb_false_iff in H1 as [H1 _]. congruence.
  - intros [= -> Hrest] H1 Hr1 H2 Hr2.
    apply orb_false_iff in H1 as [_ H1]. apply orb_false_iff in H2 as [_ H2].
    destruct (IH b2 Hrest H1 Hr1 H2 Hr2) as (-> & -> & ->). auto.
Qed.

(** ** The [jwt] callback, branch by branch *)

Section JwtStrategy.

Variables (env : Env) (p : Provider).
Variables (token : JWT.t) (profile : option Profile.t) (w : World).

Let req : TokenRequest.t := token_request env (JWT.refresh_token token).

Lemma jwt_reuse :
  clock w < JWT.expires_at token * 1000 ->
  jwt env p token None profile w = (Returned token, w).
Proof.
  intros H. unfold jwt, bind, date_now, ret.
  apply Z.ltb_lt in H. now rewrite H.
Qed.

Lemma jwt_missing_refresh :
  JWT.expires_at token * 1000 <= clock w ->
  Js.truthy (JWT.refresh_token token) = false ->
  jwt env p token None profile w = (Threw (Js.Error "Missing refresh token"), w).
Proof.
  intros H Hr. unfold jwt, bind, date_now, throw.
  apply Z.ltb_ge in H. now rewrite H, Hr.
Qed.

Lemma jwt_refresh_success (tokens : ResponseTokens.t) :
  JWT.expires_at token * 1000 <= clock w ->
  Js.truthy (JWT.refresh_token token) = true ->
  respond p req = Success tokens ->
  jwt env p token None profile w
  = (Returned
       (refreshed token (ResponseTokens.access_token tokens)
          (now (exchanged p req w) + ResponseTokens.expires_in tokens)
          (Js.nullish (ResponseTokens.refresh_token tokens)
                      (JWT.refresh_token token))),
     exchanged p req w).
Proof.
  intros H Hr Hs. unfold jwt, bind, date_now, try_catch, fetch.
  apply Z.ltb_ge in H. rewrite H, Hr. fold req. rewrite Hs. simpl.
  now rewrite floor_seconds_spec.
Qed.

Lemma jwt_refresh_failure (e : Js.thrown) :
  JWT.expires_at token * 1000 <= clock w ->
  Js.truthy (JWT.refresh_token token) = true ->
  failure (respond p req) = Some e ->
  jwt env p token None profile w
  = (Returned (flagged token), logged e (exchanged p req w)).
Proof.
  intros H Hr Hf. unfold jwt, bind, date_now, try_catch, fetch.
  apply Z.ltb_ge in H. rewrite H, Hr. fold req.
  destruct (respond p req); simpl in Hf |- *; [ | |discriminate];
    injection Hf as <-; reflexivity.
Qed.

End JwtStrategy.

(** ** The database [session] callback, branch by branch *)

Lemma session_without_rows (env : Env) (p : Provider) (s : Session.t)
    (user : AdapterUser.t) (w : World) :
  where_user (AdapterUser.id user) "google" (accounts w) = [] ->
  session env p s user w
  = (Threw (Js.TypeError
              "Cannot read properties of undefined (reading 'expires_at')"),
     w).
Proof.
  intros H. unfold session, bind, findMany. now rewrite H.
Qed.

Section DatabaseStrategy.

Variables (env : Env) (p : Provider).
Variables (s : Session.t) (user : AdapterUser.t) (w : World).
Variables (googleAccount : Row.t) (others : list Row.t).

Let req : TokenRequest.t := token_request env (Row.refresh_token googleAccount).

Hypothesis Hfound :
  where_user (AdapterUser.id user) "google" (accounts w) = googleAccount :: others.

Lemma session_reuse :
  clock w <= Row.expires_at googleAccount * 1000 ->
  session env p s user w = (Returned s, w).
Proof.
  intros H. unfold session, bind, findMany, date_now, ret. rewrite Hfound.
  apply Z.ltb_ge in H. now rewrite H.
Qed.

Lemma session_refresh_failure (e : Js.thrown) :
  Row.expires_at googleAccount * 1000 < clock w ->
  failure (respond p req) = Some e ->
  session env p s user w
  = (Returned (Session.set_error s), logged e (exchanged p req w)).
Proof.
  intros H Hf. unfold session, bind, findMany, date_now, try_catch, fetch.
  rewrite Hfound. apply Z.ltb_lt in H. rewrite H. fold req.
  destruct (respond p req); simpl in Hf |- *; [ | |discriminate];
    injection Hf as <-; reflexivity.
Qed.

Lemma session_refresh_success (tokens : ResponseTokens.t) :
  Row.expires_at googleAccount * 1000 < clock w ->
  respond p req = Success tokens ->
  exists rows',
    update_row "google" (Row.providerAccountId googleAccount)
      (set_tokens (ResponseTokens.access_token tokens)
         (now (exchanged p req w) + ResponseTokens.expires_in tokens)
         (Js.nullish (ResponseTokens.refresh_token tokens)
                     (Row.refresh_token googleAccount)))
      (accounts w) = Some rows'
    /\ session env p s user w
       = (Returned s,
          mkWorld (clock w + latency p req) (requests w ++ [req]) (console w)
                  rows').
Proof.
  intros H Hs.
  destruct (where_user_first _ _ _ _ _ Hfound)
    as (before & after & Hrows & _ & _ & Hprov).
  set (change := set_tokens _ _ _).
  destruct (update_row_found "google" (Row.providerAccountId googleAccount)
              change (accounts w) googleAccount) as [rows' Hup].
  { rewrite Hrows. apply in_elt. }
  { rewrite <- Hprov. apply row_is_self. }
  exists rows'. split; [exact Hup|].
  unfold session, bind, findMany, date_now, try_catch, fetch, account_update.
  rewrite Hfound. apply Z.ltb_lt in H. rewrite H. fold req. rewrite Hs. simpl.
  rewrite floor_seconds_spec. fold req. unfold now, exchanged in change.
  simpl in change. fold change. now rewrite Hup.
Qed.

End DatabaseStrategy.

(** ** The spec's scenarios, run *)

Example scenario_reuse :
  jwt Scenario.env Scenario.granting Scenario.token_A1 None None
      (Scenario.at_time 50)
  = (Returned Scenario.token_A1, Scenario.at_time 50).
Proof. reflexivity. Qed.

Example scenario_refresh :
  fst (jwt Scenario.env Scenario.granting Scenario.token_A1 None None
           (Scenario.at_time 150))
  = Returned (JWT.mk (Some "u1") None [("iss", "example")] "A2" (150 + 3600)
                     (Some "R1") (Some Scenario.ada) None).
Proof. reflexivity. Qed.

Example scenario_refused :
  fst (jwt Scenario.env Scenario.refusing Scenario.token_A1 None None
           (Scenario.at_time 150))
  = Returned (JWT.mk (Some "u1") None [("iss", "example")] "A1" 100
                     (Some "R1") (Some Scenario.ada)
                     (Some RefreshAccessTokenError)).
Proof. reflexivity. Qed.

Example scenario_database_refresh :
  session Scenario.env Scenario.rotating Scenario.view Scenario.u1
          (Scenario.at_time 150)
  = (Returned Scenario.view,
     mkWorld 150650
       [token_request Scenario.env (Some "R1")] []
       [Scenario.row_u2; Scenario.row_u1_github;
        Row.mk "u1" "google" "g-1" "A2" 3750 (Some "R2")]).
Proof. reflexivity. Qed.

Example scenario_first_login :
  jwt Scenario.env Scenario.unreachable Scenario.token_A1_flagged
      (Some Scenario.account_A0) (Some (Profile.mk (Some "Ada") None))
      (Scenario.at_time 150)
  = (Returned (JWT.mk None None [] "A0" 90 (Some "R0")
                      (Some (User.mk (Some "u1") (Some "Ada") None None)) None),
     Scenario.at_time 150).
Proof. reflexivity. Qed.

(** At the very millisecond of expiry the two strategies part: the [jwt]
    callback already refreshes, the database callback still reuses. *)
Example scenario_on_expiry :
  jwt_path Scenario.token_A1 None Scenario.on_expiry = Refresh
  /\ session_path Scenario.u1 Scenario.on_expiry = Reuse.
Proof. split; reflexivity. Qed.

(** The [session] callback of the JWT strategy copies [user] only: the
    [error] property of the token does not reach the session. *)
Lemma jwt_session_keeps_error (session : Session.t) (token : JWT.t) (w : World) :
  exists result,
    jwt_session session token w = (Returned result, w)
    /\ Session.error result = Session.error session.
Proof.
  unfold jwt_session. destruct (JWT.user token); eexists; split; reflexivity.
Qed.

(** ** Claims *)

(** C6. On the first materialization after the initial authorization
    ([account] is given: the token carries no credential yet) the [jwt]
    callback returns the supplied credentials as they are (access token,
    expiry, refresh token), with no error flag (status ok), and leaves the
    world untouched: no network call, no log line, no store write. *)
Theorem bootstrap_returns_supplied_tuple :
  forall env p token account profile w,
  exists result,
    jwt env p token (Some account) profile w = (Returned result, w)
    /\ JWT.access_token result = Account.access_token account
    /\ JWT.expires_at result = Account.expires_at account
    /\ JWT.refresh_token result = Account.refresh_token account
    /\ JWT.error result = None
    /\ JWT.user result = Some (userProfile token profile).
Proof.
  intros. eexists. split; [reflexivity|]. simpl. auto.
Qed.

(** C3 (as amended). While [now < expiry], a token that is not a first login
    is returned as it came in, its status included, and the world is
    untouched (zero network calls); the database strategy likewise returns
    the session as it came in and leaves the stored row alone.  The status of
    the result is the status of the input: ok for a tuple that came in ok,
    and still [RefreshAccessTokenError] for a tuple that came in flagged. *)
Theorem reuse_returns_tuple_unchanged :
  (forall env p token profile w,
      now w < JWT.expires_at token ->
      exists result,
        jwt env p token None profile w = (Returned result, w)
        /\ result = token
        /\ JWT.error result = JWT.error token)
  /\
  (forall env p s user w googleAccount others,
      where_user (AdapterUser.id user) "google" (accounts w)
      = googleAccount :: others ->
      now w < Row.expires_at googleAccount ->
      exists result,
        session env p s user w = (Returned result, w)
        /\ result = s
        /\ Session.error result = Session.error s).
Proof.
  split.
  - intros env p token profile w H. exists token.
    apply now_before in H. rewrite (jwt_reuse env p token profile w H). auto.
  - intros env p s user w g others Hg H. exists s.
    apply now_before in H.
    rewrite (session_reuse env p s user w g others Hg); [auto|lia].
Qed.

Lemma reuse_returns_tuple_unchanged_witness :
  (exists result,
      jwt Scenario.env Scenario.granting Scenario.token_A1 None None
          (Scenario.at_time 50)
      = (Returned result, Scenario.at_time 50)
      /\ result = Scenario.token_A1
      /\ JWT.error result = None)
  /\
  (exists result,
      session Scenario.env Scenario.granting Scenario.view Scenario.u1
              (Scenario.at_time 50)
      = (Returned result, Scenario.at_time 50)
      /\ result = Scenario.view
      /\ Session.error result = None).
Proof.
  split.
  - apply (proj1 reuse_returns_tuple_unchanged
             Scenario.env Scenario.granting Scenario.token_A1 None
             (Scenario.at_time 50)).
    vm_compute. reflexivity.
  - apply (proj2 reuse_returns_tuple_unchanged
             Scenario.env Scenario.granting Scenario.view Scenario.u1
             (Scenario.at_time 50) Scenario.row_u1 []).
    + reflexivity.
    + vm_compute. reflexivity.
Defined.

(** C3 as stated fails: a refresh that failed at [now = 150] leaves the
    token flagged, the refresh that succeeds next keeps the flag, and the
    token it returns, read at [now = 200] well before its new expiry, comes
    back unchanged and therefore still flagged, not ok. *)
Lemma reuse_returns_flagged_tuple_flagged :
  fst (jwt Scenario.env Scenario.refusing Scenario.token_A1 None None
           (Scenario.at_time 150))
  = Returned Scenario.token_A1_flagged
  /\ fst (jwt Scenario.env Scenario.granting Scenario.token_A1_flagged None None
              (Scenario.at_time 150))
     = Returned Scenario.token_A2_flagged
  /\ now (Scenario.at_time 200) < JWT.expires_at Scenario.token_A2_flagged
  /\ ~ (exists result,
           jwt Scenario.env Scenario.granting Scenario.token_A2_flagged
               None None (Scenario.at_time 200)
           = (Returned result, Scenario.at_time 200)
           /\ result = Scenario.token_A2_flagged
           /\ JWT.error result = None).
Proof.
  split; [reflexivity|]. split; [reflexivity|].
  split; [vm_compute; reflexivity|].
  intros (result & _ & -> & He). discriminate He.
Qed.

(** C9. Database strategy: when the user has no stored google account row,
    [findMany] yields the empty list, the destructured [googleAccount] is
    undefined, and reading [expires_at] off it aborts the callback with a
    TypeError, outside the try block: no session is returned, no call is
    made, nothing is logged or written. *)
Theorem session_without_account_row_throws :
  forall env p s user w,
    where_user (AdapterUser.id user) "google" (accounts w) = [] ->
    session env p s user w
    = (Threw (Js.TypeError
                "Cannot read properties of undefined (reading 'expires_at')"),
       w).
Proof.
  intros env p s user w H. now apply session_without_rows.
Qed.

Lemma session_without_account_row_throws_witness :
  session Scenario.env Scenario.granting Scenario.view Scenario.u3
          (Scenario.at_time 150)
  = (Threw (Js.TypeError
              "Cannot read properties of undefined (reading 'expires_at')"),
     Scenario.at_time 150).
Proof.
  apply (session_without_account_row_throws
           Scenario.env Scenario.granting Scenario.view Scenario.u3
           (Scenario.at_time 150)).
  reflexivity.
Defined.

(** C1 (as amended). JWT strategy: when the access token is expired
    ([now >= expiry]) and the refresh token is absent (or empty), the [jwt]
    callback attempts no exchange and throws [Error("Missing refresh token")]
    from its guard, which stands before the try block: no tuple is returned,
    and the world is untouched (no call, no log line, no store write). *)
Theorem expired_without_refresh_token_throws :
  forall env p token profile w,
    JWT.expires_at token <= now w ->
    Js.truthy (JWT.refresh_token token) = false ->
    jwt env p token None profile w
    = (Threw (Js.Error "Missing refresh token"), w).
Proof.
  intros env p token profile w H Hr. apply now_reached in H.
  now apply jwt_missing_refresh.
Qed.

Lemma expired_without_refresh_token_throws_witness :
  jwt Scenario.env Scenario.granting Scenario.token_A1_no_refresh None None
      (Scenario.at_time 150)
  = (Threw (Js.Error "Missing refresh token"), Scenario.at_time 150).
Proof.
  apply (expired_without_refresh_token_throws
           Scenario.env Scenario.granting Scenario.token_A1_no_refresh None
           (Scenario.at_time 150)).
  - vm_compute. discriminate.
  - reflexivity.
Defined.

(** C1 as stated fails: on the spec's own scenario
    [{access="A1", expiry=100, refresh=absent}] at [now=150] the [jwt]
    callback returns no tuple at all. *)
Lemma expired_without_refresh_token_returns_nothing :
  JWT.expires_at Scenario.token_A1_no_refresh <= now (Scenario.at_time 150)
  /\ JWT.refresh_token Scenario.token_A1_no_refresh = None
  /\ ~ (exists result w',
           jwt Scenario.env Scenario.granting Scenario.token_A1_no_refresh
               None None (Scenario.at_time 150)
           = (Returned result, w')
           /\ JWT.error result = Some RefreshAccessTokenError
           /\ JWT.access_token result
              = JWT.access_token Scenario.token_A1_no_refresh).
Proof.
  split; [vm_compute; discriminate|]. split; [reflexivity|].
  intros (result & w' & H & _). vm_compute in H. discriminate H.
Qed.

(** C2 (as amended). When the access token is expired, a refresh token is
    present and the exchange succeeds with [expires_in = E], the [jwt]
    callback returns the token with the new access token, with the refresh
    token the response supplies (the old one when it supplies none), and,
    for a clock and a lifetime in the range where the binary64 arithmetic
    of [Math.floor(Date.now() / 1000 + E)] is exact, with [expiry = now + E],
    [now] being the clock in whole seconds when the response has arrived.
    Every other property of the token is kept, the [error] property
    included: the status is ok exactly when it was ok on entry, and a flag
    left by an earlier failed materialization is not cleared.  In the
    database strategy, once the stored expiry lies strictly in the past, the
    same new access token, refresh token and expiry are written to the
    stored row and the session is returned as it came in. *)
Theorem refresh_success_installs_new_token :
  (forall env p token profile w tokens,
      JWT.expires_at token <= now w ->
      Js.truthy (JWT.refresh_token token) = true ->
      respond p (token_request env (JWT.refresh_token token)) = Success tokens ->
      exists result w',
        jwt env p token None profile w = (Returned result, w')
        /\ clock w' = clock w + latency p (token_request env (JWT.refresh_token token))
        /\ JWT.access_token result = ResponseTokens.access_token tokens
        /\ JWT.refresh_token result
           = Js.nullish (ResponseTokens.refresh_token tokens)
                        (JWT.refresh_token token)
        /\ (Binary64.exact_range (clock w') (ResponseTokens.expires_in tokens) ->
            JWT.expires_at result = now w' + ResponseTokens.expires_in tokens
            /\ Binary64.floor_seconds (clock w') (ResponseTokens.expires_in tokens)
               = Some (JWT.expires_at result))
        /\ JWT.error result = JWT.error token
        /\ JWT.sub result = JWT.sub token
        /\ JWT.picture result = JWT.picture token
        /\ JWT.claims result = JWT.claims token
        /\ JWT.user result = JWT.user token)
  /\
  (forall env p s user w googleAccount others tokens,
      unique_keys (accounts w) = true ->
      where_user (AdapterUser.id user) "google" (accounts w)
      = googleAccount :: others ->
      Row.expires_at googleAccount * 1000 < clock w ->
      respond p (token_request env (Row.refresh_token googleAccount))
      = Success tokens ->
      exists w' before after stored,
        session env p s user w = (Returned s, w')
        /\ clock w'
           = clock w + latency p (token_request env (Row.refresh_token googleAccount))
        /\ accounts w = before ++ googleAccount :: after
        /\ accounts w' = before ++ stored :: after
        /\ Row.access_token stored = ResponseTokens.access_token tokens
        /\ Row.refresh_token stored
           = Js.nullish (ResponseTokens.refresh_token tokens)
                        (Row.refresh_token googleAccount)
        /\ (Binary64.exact_range (clock w') (ResponseTokens.expires_in tokens) ->
            Row.expires_at stored = now w' + ResponseTokens.expires_in tokens
            /\ Binary64.floor_seconds (clock w') (ResponseTokens.expires_in tokens)
               = Some (Row.expires_at stored))
        /\ Row.userId stored = Row.userId googleAccount
        /\ Row.provider stored = Row.provider googleAccount
        /\ Row.providerAccountId stored = Row.providerAccountId googleAccount).
Proof.
  split.
  - intros env p token profile w tokens H Hr Hs. apply now_reached in H.
    do 2 eexists. split; [apply (jwt_refresh_success _ _ _ _ _ tokens H Hr Hs)|].
    cbn [refreshed JWT.access_token JWT.refresh_token JWT.expires_at JWT.error
         JWT.sub JWT.picture JWT.claims JWT.user].
    split; [reflexivity|]. split; [reflexivity|]. split; [reflexivity|].
    split; [|repeat split; reflexivity].
    intros Hrange. split; [reflexivity|].
    rewrite (floor_seconds_binary64 _ _ Hrange). now rewrite floor_seconds_spec.
  - intros env p s user w g others tokens Hu Hg H Hs.
    destruct (session_refresh_success env p s user w g others Hg tokens H Hs)
      as (rows' & Hup & Hrun).
    destruct (where_user_first _ _ _ _ _ Hg) as (before & after & Hrows & _ & _ & Hp).
    rewrite Hrows in Hu, Hup. rewrite <- Hp in Hup.
    rewrite (update_row_unique _ _ _ _ Hu) in Hup. injection Hup as <-.
    eexists _, before, after, _. split; [exact Hrun|].
    cbn [clock accounts set_tokens Row.access_token Row.refresh_token
         Row.expires_at Row.userId Row.provider Row.providerAccountId].
    split; [reflexivity|]. split; [exact Hrows|]. split; [reflexivity|].
    split; [reflexivity|]. split; [reflexivity|].
    split; [|repeat split; reflexivity].
    intros Hrange. split; [reflexivity|].
    rewrite (floor_seconds_binary64 _ _ Hrange). now rewrite floor_seconds_spec.
Qed.

Lemma refresh_success_installs_new_token_witness :
  (exists result w',
      jwt Scenario.env Scenario.granting Scenario.token_A1 None None
          (Scenario.at_time 150)
      = (Returned result, w')
      /\ JWT.access_token result = "A2"
      /\ JWT.refresh_token result = Some "R1"
      /\ JWT.expires_at result = 150 + 3600
      /\ Binary64.floor_seconds 150250 3600 = Some (JWT.expires_at result)
      /\ JWT.error result = None)
  /\
  (exists w' before after stored,
      session Scenario.env Scenario.rotating Scenario.view Scenario.u1
              (Scenario.at_time 150)
      = (Returned Scenario.view, w')
      /\ accounts w' = before ++ stored :: after
      /\ Row.access_token stored = "A2"
      /\ Row.refresh_token stored = Some "R2"
      /\ Row.expires_at stored = 150 + 3600).
Proof.
  split.
  - destruct (proj1 refresh_success_installs_new_token
                Scenario.env Scenario.granting Scenario.token_A1 None
                (Scenario.at_time 150) (ResponseTokens.mk "A2" 3600 None))
      as (result & w' & Hrun & Hclock & Ha & Hr & He & Herr & _).
    + vm_compute. discriminate.
    + reflexivity.
    + reflexivity.
    + rewrite Hclock in He. destruct He as [He Hb].
      { vm_compute. repeat split; discriminate. }
      exists result, w'. repeat split; try assumption.
      rewrite He. unfold now. rewrite Hclock. reflexivity.
  - destruct (proj2 refresh_success_installs_new_token
                Scenario.env Scenario.rotating Scenario.view Scenario.u1
                (Scenario.at_time 150) Scenario.row_u1 []
                (ResponseTokens.mk "A2" 3600 (Some "R2")))
      as (w' & before & after & stored & Hrun & Hclock & _ & Hrows & Ha & Hr
          & He & _).
    + reflexivity.
    + reflexivity.
    + vm_compute. reflexivity.
    + reflexivity.
    + rewrite Hclock in He. destruct He as [He _].
      { vm_compute. repeat split; discriminate. }
      exists w', before, after, stored. repeat split; try assumption.
      rewrite He. unfold now. rewrite Hclock. reflexivity.
Defined.

(** C2 as stated fails: the token flagged by an earlier failed
    materialization, expired and with its refresh token present, comes back
    from a successful exchange still flagged. *)
Lemma refresh_success_keeps_stale_error_flag :
  JWT.expires_at Scenario.token_A1_flagged <= now (Scenario.at_time 150)
  /\ JWT.refresh_token Scenario.token_A1_flagged = Some "R1"
  /\ JWT.error Scenario.token_A1_flagged = Some RefreshAccessTokenError
  /\ respond Scenario.granting
             (token_request Scenario.env
                            (JWT.refresh_token Scenario.token_A1_flagged))
     = Success (ResponseTokens.mk "A2" 3600 None)
  /\ ~ (exists result w',
           jwt Scenario.env Scenario.granting Scenario.token_A1_flagged
               None None (Scenario.at_time 150)
           = (Returned result, w')
           /\ JWT.access_token result = "A2"
           /\ JWT.expires_at result = now (Scenario.at_time 150) + 3600
           /\ JWT.error result = None).
Proof.
  split; [vm_compute; discriminate|]. do 3 (split; [reflexivity|]).
  intros (result & w' & H & _ & _ & He). vm_compute in H.
  injection H as <- _. discriminate He.
Qed.

(** C4. When the access token is expired, a refresh token is present and
    the exchange fails (a rejected [fetch] or a non-success response), the
    [jwt] callback returns the input token with only [error] set to
    [RefreshAccessTokenError]: access token, expiry, refresh token and every
    other property are the input's, and the store is untouched.  In the
    database strategy, where the exchange is made once the stored expiry lies
    strictly in the past, a failed exchange returns the input session with
    only [error] set and leaves the account table, the stored row included,
    as it was; and whenever [now >= expiry] and the provider's answer is a
    failure, the account table after the callback is the table before it. *)
Theorem refresh_failure_only_flags :
  (forall env p token profile w e,
      JWT.expires_at token <= now w ->
      Js.truthy (JWT.refresh_token token) = true ->
      failure (respond p (token_request env (JWT.refresh_token token))) = Some e ->
      exists result w',
        jwt env p token None profile w = (Returned result, w')
        /\ JWT.access_token result = JWT.access_token token
        /\ JWT.expires_at result = JWT.expires_at token
        /\ JWT.refresh_token result = JWT.refresh_token token
        /\ JWT.error result = Some RefreshAccessTokenError
        /\ JWT.sub result = JWT.sub token
        /\ JWT.picture result = JWT.picture token
        /\ JWT.claims result = JWT.claims token
        /\ JWT.user result = JWT.user token
        /\ accounts w' = accounts w)
  /\
  (forall env p s user w googleAccount others e,
      where_user (AdapterUser.id user) "google" (accounts w)
      = googleAccount :: others ->
      Row.expires_at googleAccount * 1000 < clock w ->
      failure (respond p (token_request env (Row.refresh_token googleAccount)))
      = Some e ->
      exists result w',
        session env p s user w = (Returned result, w')
        /\ Session.error result = Some RefreshAccessTokenError
        /\ Session.user result = Session.user s
        /\ Session.expires result = Session.expires s
        /\ Session.rest result = Session.rest s
        /\ accounts w' = accounts w
        /\ where_user (AdapterUser.id user) "google" (accounts w')
           = googleAccount :: others)
  /\
  (forall env p s user w googleAccount others e,
      where_user (AdapterUser.id user) "google" (accounts w)
      = googleAccount :: others ->
      Row.expires_at googleAccount <= now w ->
      failure (respond p (token_request env (Row.refresh_token googleAccount)))
      = Some e ->
      accounts (snd (session env p s user w)) = accounts w).
Proof.
  split; [|split].
  - intros env p token profile w e H Hr Hf. apply now_reached in H.
    do 2 eexists. split; [apply (jwt_refresh_failure _ _ _ _ _ e H Hr Hf)|].
    simpl. repeat split; reflexivity.
  - intros env p s user w g others e Hg H Hf.
    do 2 eexists.
    split; [apply (session_refresh_failure _ _ _ _ _ g others Hg e H Hf)|].
    simpl. repeat split; try reflexivity. exact Hg.
  - intros env p s user w g others e Hg _ Hf.
    destruct (Z_lt_le_dec (Row.expires_at g * 1000) (clock w)) as [H|H].
    + now rewrite (session_refresh_failure _ _ _ _ _ g others Hg e H Hf).
    + now rewrite (session_reuse env p s user w g others Hg H).
Qed.

Lemma refresh_failure_only_flags_witness :
  (exists result w',
      jwt Scenario.env Scenario.refusing Scenario.token_A1 None None
          (Scenario.at_time 150)
      = (Returned result, w')
      /\ JWT.access_token result = "A1"
      /\ JWT.expires_at result = 100
      /\ JWT.refresh_token result = Some "R1"
      /\ JWT.error result = Some RefreshAccessTokenError)
  /\
  (exists result w',
      session Scenario.env Scenario.unreachable Scenario.view Scenario.u1
              (Scenario.at_time 150)
      = (Returned result, w')
      /\ Session.error result = Some RefreshAccessTokenError
      /\ accounts w' = Scenario.table)
  /\
  accounts (snd (session Scenario.env Scenario.refusing Scenario.view
                         Scenario.u1 Scenario.on_expiry))
  = Scenario.table.
Proof.
  split; [|split].
  - destruct (proj1 refresh_failure_only_flags
                Scenario.env Scenario.refusing Scenario.token_A1 None
                (Scenario.at_time 150) (Js.Payload "invalid_grant"))
      as (result & w' & Hrun & Ha & He & Hr & Herr & _).
    + vm_compute. discriminate.
    + reflexivity.
    + reflexivity.
    + exists result, w'. repeat split; assumption.
  - destruct (proj1 (proj2 refresh_failure_only_flags)
                Scenario.env Scenario.unreachable Scenario.view Scenario.u1
                (Scenario.at_time 150) Scenario.row_u1 []
                (Js.Rejection "fetch failed"))
      as (result & w' & Hrun & Herr & _ & _ & _ & Hrows & _).
    + reflexivity.
    + vm_compute. reflexivity.
    + reflexivity.
    + exists result, w'. repeat split; assumption.
  - apply (proj2 (proj2 refresh_failure_only_flags)
             Scenario.env Scenario.refusing Scenario.view Scenario.u1
             Scenario.on_expiry Scenario.row_u1 []
             (Js.Payload "invalid_grant")).
    + reflexivity.
    + vm_compute. discriminate.
    + reflexivity.
Defined.

(** C5. Rotation law.  After a successful exchange the refresh token of the
    result is the one the response supplies; when the response supplies none
    it is the input's own.  The [jwt] callback returns it in the token, the
    database strategy writes it to the stored row. *)
Theorem refresh_token_rotation :
  (forall env p token profile w tokens,
      JWT.expires_at token <= now w ->
      Js.truthy (JWT.refresh_token token) = true ->
      respond p (token_request env (JWT.refresh_token token)) = Success tokens ->
      exists result w',
        jwt env p token None profile w = (Returned result, w')
        /\ (ResponseTokens.refresh_token tokens = None ->
            JWT.refresh_token result = JWT.refresh_token token)
        /\ (forall rotated,
               ResponseTokens.refresh_token tokens = Some rotated ->
               JWT.refresh_token result = Some rotated))
  /\
  (forall env p s user w googleAccount others tokens,
      unique_keys (accounts w) = true ->
      where_user (AdapterUser.id user) "google" (accounts w)
      = googleAccount :: others ->
      Row.expires_at googleAccount * 1000 < clock w ->
      respond p (token_request env (Row.refresh_token googleAccount))
      = Success tokens ->
      exists w' before after stored,
        session env p s user w = (Returned s, w')
        /\ accounts w = before ++ googleAccount :: after
        /\ accounts w' = before ++ stored :: after
        /\ (ResponseTokens.refresh_token tokens = None ->
            Row.refresh_token stored = Row.refresh_token googleAccount)
        /\ (forall rotated,
               ResponseTokens.refresh_token tokens = Some rotated ->
               Row.refresh_token stored = Some rotated)).
Proof.
  split.
  - intros env p token profile w tokens H Hr Hs. apply now_reached in H.
    do 2 eexists. split; [apply (jwt_refresh_success _ _ _ _ _ tokens H Hr Hs)|].
    simpl. split; [intros -> | intros rotated ->]; reflexivity.
  - intros env p s user w g others tokens Hu Hg H Hs.
    destruct (session_refresh_success env p s user w g others Hg tokens H Hs)
      as (rows' & Hup & Hrun).
    destruct (where_user_first _ _ _ _ _ Hg) as (before & after & Hrows & _ & _ & Hp).
    rewrite Hrows in Hu, Hup. rewrite <- Hp in Hup.
    rewrite (update_row_unique _ _ _ _ Hu) in Hup. injection Hup as <-.
    eexists _, before, after, _. split; [exact Hrun|].
    simpl. split; [exact Hrows|]. split; [reflexivity|].
    split; [intros -> | intros rotated ->]; reflexivity.
Qed.

Lemma refresh_token_rotation_witness :
  (exists result w',
      jwt Scenario.env Scenario.granting Scenario.token_A1 None None
          (Scenario.at_time 150)
      = (Returned result, w')
      /\ JWT.refresh_token result = Some "R1")
  /\
  (exists w' before after stored,
      session Scenario.env Scenario.rotating Scenario.view Scenario.u1
              (Scenario.at_time 150)
      = (Returned Scenario.view, w')
      /\ accounts w' = before ++ stored :: after
      /\ Row.refresh_token stored = Some "R2").
Proof.
  split.
  - destruct (proj1 refresh_token_rotation
                Scenario.env Scenario.granting Scenario.token_A1 None
                (Scenario.at_time 150) (ResponseTokens.mk "A2" 3600 None))
      as (result & w' & Hrun & Hkept & _).
    + vm_compute. discriminate.
    + reflexivity.
    + reflexivity.
    + exists result, w'. split; [exact Hrun|]. now rewrite Hkept.
  - destruct (proj2 refresh_token_rotation
                Scenario.env Scenario.rotating Scenario.view Scenario.u1
                (Scenario.at_time 150) Scenario.row_u1 []
                (ResponseTokens.mk "A2" 3600 (Some "R2")))
      as (w' & before & after & stored & Hrun & _ & Hrows & _ & Hrot).
    + reflexivity.
    + reflexivity.
    + vm_compute. reflexivity.
    + reflexivity.
    + exists w', before, after, stored. repeat split; try assumption.
      now apply Hrot.
Defined.

(** C7. The claim fails on the database callback, which has no guard on the
    refresh token: for the stored row of user u4 (expired at 100, no refresh
    token) read at [now = 150] it makes one call to the token endpoint,
    posting [refresh_token=null], where the claim has none on the
    missing-refresh-credential path; the [jwt] callback, given the same
    tuple, stops at its guard and makes none. *)
Theorem database_missing_refresh_credential_is_exchanged :
  where_user "u4" "google" (accounts (Scenario.wide_at_time 150))
  = [Scenario.row_u4]
  /\ Row.refresh_token Scenario.row_u4 = None
  /\ Row.expires_at Scenario.row_u4 <= now (Scenario.wide_at_time 150)
  /\ requests (snd (session Scenario.env Scenario.refusing Scenario.view
                            Scenario.u4 (Scenario.wide_at_time 150)))
     = [token_request Scenario.env None]
  /\ TokenRequest.refresh_token (token_request Scenario.env None) = Some "null"
  /\ jwt Scenario.env Scenario.refusing Scenario.token_E1_no_refresh None None
         (Scenario.wide_at_time 150)
     = (Threw (Js.Error "Missing refresh token"), Scenario.wide_at_time 150)
  /\ requests (Scenario.wide_at_time 150) = [].
Proof.
  split; [reflexivity|]. split; [reflexivity|].
  split; [vm_compute; discriminate|]. repeat split.
Qed.

(** X20. Whatever the input and whatever the provider answers, one
    evaluation of either callback sends at most one request to the token
    endpoint: exactly one when it takes its refresh branch, success or
    failure alike (a failed exchange is not tried again), and none on any
    other branch ([jwt]: first login, valid token, guard; database
    [session]: no row, valid row). *)
Theorem at_most_one_exchange :
  (forall env p token account profile w,
      exists new,
        requests (snd (jwt env p token account profile w)) = requests w ++ new
        /\ length new = calls_on (jwt_path token account w)
        /\ (length new <= 1)%nat)
  /\
  (forall env p s user w,
      exists new,
        requests (snd (session env p s user w)) = requests w ++ new
        /\ length new = calls_on (session_path user w)
        /\ (length new <= 1)%nat).
Proof.
  split.
  - intros env p token account profile w. unfold jwt_path.
    destruct account as [a|].
    { exists []. simpl. rewrite app_nil_r. auto. }
    destruct (Z.ltb_spec (clock w) (JWT.expires_at token * 1000)) as [H|H].
    { exists []. rewrite (jwt_reuse env p token profile w H). simpl.
      rewrite app_nil_r. auto. }
    destruct (Js.truthy (JWT.refresh_token token)) eqn:Hr.
    2:{ exists []. rewrite (jwt_missing_refresh env p token profile w H Hr).
        simpl. rewrite app_nil_r. auto. }
    exists [token_request env (JWT.refresh_token token)].
    destruct (respond p (token_request env (JWT.refresh_token token))) eqn:Hs.
    + rewrite (jwt_refresh_failure env p token profile w _ H Hr
                 ltac:(rewrite Hs; reflexivity)). simpl. auto.
    + rewrite (jwt_refresh_failure env p token profile w _ H Hr
                 ltac:(rewrite Hs; reflexivity)). simpl. auto.
    + rewrite (jwt_refresh_success env p token profile w _ H Hr Hs). simpl. auto.
  - intros env p s user w. unfold session_path.
    destruct (where_user (AdapterUser.id user) "google" (accounts w))
      as [|g others] eqn:Hg.
    { exists []. rewrite (session_without_rows env p s user w Hg). simpl.
      rewrite app_nil_r. auto. }
    destruct (Z.ltb_spec (Row.expires_at g * 1000) (clock w)) as [H|H].
    2:{ exists []. rewrite (session_reuse env p s user w g others Hg H). simpl.
        rewrite app_nil_r. auto. }
    exists [token_request env (Row.refresh_token g)].
    destruct (respond p (token_request env (Row.refresh_token g))) eqn:Hs.
    + rewrite (session_refresh_failure env p s user w g others Hg _ H
                 ltac:(rewrite Hs; reflexivity)). simpl. auto.
    + rewrite (session_refresh_failure env p s user w g others Hg _ H
                 ltac:(rewrite Hs; reflexivity)). simpl. auto.
    + destruct (session_refresh_success env p s user w g others Hg _ H Hs)
        as (rows' & _ & ->). simpl. auto.
Qed.

(** C8 (as amended). The [jwt] callback never writes to the store: the
    updated token is only returned, and persisting it is left to the caller.
    The database [session] callback writes to the store itself: when the
    exchange it made succeeds, [prisma.account.update] replaces, in the row
    with the key of the account it read, the access token, the refresh
    token and (for a clock and a lifetime in the range where the binary64
    arithmetic is exact) the expiry by the new ones, where the row stands
    (with unique keys that row is the account it read); when there is no
    row, the row is still valid, or the exchange fails, it leaves the table
    as it was. *)
Theorem store_written_only_by_database_refresh :
  (forall env p token account profile w,
      accounts (snd (jwt env p token account profile w)) = accounts w)
  /\
  (forall env p s user w,
      where_user (AdapterUser.id user) "google" (accounts w) = [] ->
      accounts (snd (session env p s user w)) = accounts w)
  /\
  (forall env p s user w googleAccount others,
      where_user (AdapterUser.id user) "google" (accounts w)
      = googleAccount :: others ->
      clock w <= Row.expires_at googleAccount * 1000 ->
      accounts (snd (session env p s user w)) = accounts w)
  /\
  (forall env p s user w googleAccount others e,
      where_user (AdapterUser.id user) "google" (accounts w)
      = googleAccount :: others ->
      Row.expires_at googleAccount * 1000 < clock w ->
      failure (respond p (token_request env (Row.refresh_token googleAccount)))
      = Some e ->
      accounts (snd (session env p s user w)) = accounts w)
  /\
  (forall env p s user w googleAccount others tokens,
      where_user (AdapterUser.id user) "google" (accounts w)
      = googleAccount :: others ->
      Row.expires_at googleAccount * 1000 < clock w ->
      respond p (token_request env (Row.refresh_token googleAccount))
      = Success tokens ->
      exists before target after stored,
        accounts w = before ++ target :: after
        /\ existsb (row_is "google" (Row.providerAccountId googleAccount)) before
           = false
        /\ row_is "google" (Row.providerAccountId googleAccount) target = true
        /\ accounts (snd (session env p s user w)) = before ++ stored :: after
        /\ Row.access_token stored = ResponseTokens.access_token tokens
        /\ Row.refresh_token stored
           = Js.nullish (ResponseTokens.refresh_token tokens)
                        (Row.refresh_token googleAccount)
        /\ (Binary64.exact_range (clock (snd (session env p s user w)))
                                 (ResponseTokens.expires_in tokens) ->
            Row.expires_at stored
            = now (snd (session env p s user w))
              + ResponseTokens.expires_in tokens)
        /\ row_keys stored = row_keys target
        /\ (unique_keys (accounts w) = true -> target = googleAccount)).
Proof.
  split; [|split; [|split; [|split]]].
  - intros env p token account profile w.
    destruct account as [a|]; [reflexivity|].
    destruct (Z.ltb_spec (clock w) (JWT.expires_at token * 1000)) as [H|H].
    { now rewrite (jwt_reuse env p token profile w H). }
    destruct (Js.truthy (JWT.refresh_token token)) eqn:Hr.
    2:{ now rewrite (jwt_missing_refresh env p token profile w H Hr). }
    destruct (respond p (token_request env (JWT.refresh_token token))) eqn:Hs.
    + now rewrite (jwt_refresh_failure env p token profile w _ H Hr
                     ltac:(rewrite Hs; reflexivity)).
    + now rewrite (jwt_refresh_failure env p token profile w _ H Hr
                     ltac:(rewrite Hs; reflexivity)).
    + now rewrite (jwt_refresh_success env p token profile w _ H Hr Hs).
  - intros env p s user w Hg.
    now rewrite (session_without_rows env p s user w Hg).
  - intros env p s user w g others Hg H.
    now rewrite (session_reuse env p s user w g others Hg H).
  - intros env p s user w g others e Hg H Hf.
    now rewrite (session_refresh_failure env p s user w g others Hg e H Hf).
  - intros env p s user w g others tokens Hg H Hs.
    destruct (session_refresh_success env p s user w g others Hg tokens H Hs)
      as (rows' & Hup & Hrun).
    destruct (update_row_first _ _ _ _ _ Hup)
      as (before & target & after & Hrows & Hnone & Htarget & ->).
    exists before, target, after. eexists.
    split; [exact Hrows|]. split; [exact Hnone|]. split; [exact Htarget|].
    rewrite Hrun. cbn [snd accounts]. split; [reflexivity|].
    cbn [set_tokens Row.access_token Row.refresh_token Row.expires_at row_keys
         Row.userId Row.provider Row.providerAccountId].
    split; [reflexivity|]. split; [reflexivity|].
    split; [intros _; reflexivity|]. split; [reflexivity|].
    intros Hu.
    destruct (where_user_first _ _ _ _ _ Hg)
      as (before' & after' & Hrows' & _ & _ & Hp).
    rewrite Hrows' in Hu. pose proof (unique_keys_first _ _ _ Hu) as Hfirst.
    rewrite Hp in Hfirst.
    assert (row_is "google" (Row.providerAccountId g) g = true) as Hself
        by (rewrite <- Hp; apply row_is_self).
    rewrite Hrows in Hrows'.
    now destruct (first_match_unique _ _ _ _ _ _ _ Hrows' Hnone Htarget Hfirst Hself).
Qed.

Lemma store_written_only_by_database_refresh_witness :
  exists stored,
    accounts (snd (session Scenario.env Scenario.granting Scenario.view
                           Scenario.u1 (Scenario.at_time 150)))
    = [Scenario.row_u2; Scenario.row_u1_github; stored]
    /\ Row.access_token stored = "A2"
    /\ Row.refresh_token stored = Some "R1"
    /\ row_keys stored = row_keys Scenario.row_u1.
Proof.
  destruct (proj2 (proj2 (proj2 (proj2 store_written_only_by_database_refresh)))
              Scenario.env Scenario.granting Scenario.view Scenario.u1
              (Scenario.at_time 150) Scenario.row_u1 []
              (ResponseTokens.mk "A2" 3600 None))
    as (before & target & after & stored & Hrows & Hnone & Htarget & Hafter
        & Ha & Hr & _ & Hk & Hsame).
  - reflexivity.
  - vm_compute. reflexivity.
  - reflexivity.
  - assert (target = Scenario.row_u1) as -> by (apply Hsame; reflexivity).
    change (accounts (Scenario.at_time 150))
      with ([Scenario.row_u2; Scenario.row_u1_github] ++ Scenario.row_u1 :: [])
      in Hrows.
    assert (row_is "google" (Row.providerAccountId Scenario.row_u1)
                   Scenario.row_u1 = true) as Hself by reflexivity.
    assert (existsb (row_is "google" (Row.providerAccountId Scenario.row_u1))
                    [Scenario.row_u2; Scenario.row_u1_github] = false)
      as Hfirst by reflexivity.
    destruct (first_match_unique _ _ _ _ _ _ _ Hrows Hfirst Hself Hnone Htarget)
      as (_ & <- & <-).
    exists stored. repeat split; assumption.
Defined.

(** C8 as stated fails: in the database strategy the callback itself
    rewrites the stored row when the refresh succeeds. *)
Lemma database_refresh_writes_store :
  accounts (snd (session Scenario.env Scenario.granting Scenario.view
                         Scenario.u1 (Scenario.at_time 150)))
  = [Scenario.row_u2; Scenario.row_u1_github;
     Row.mk "u1" "google" "g-1" "A2" 3750 (Some "R1")]
  /\ accounts (snd (session Scenario.env Scenario.granting Scenario.view
                            Scenario.u1 (Scenario.at_time 150)))
     <> accounts (Scenario.at_time 150).
Proof.
  split; [reflexivity|]. vm_compute. discriminate.
Qed.

(** C10. Database strategy: whenever the user has a stored google account
    row the callback returns a session, and that session is the input
    session, or the input session with only [error] set to
    [RefreshAccessTokenError]; after a successful exchange it is the input
    session itself, so the refreshed access token, which went to the stored
    row, is not in it. *)
Theorem database_session_omits_refreshed_token :
  forall env p s user w googleAccount others,
    where_user (AdapterUser.id user) "google" (accounts w)
    = googleAccount :: others ->
    exists result w',
      session env p s user w = (Returned result, w')
      /\ Session.user result = Session.user s
      /\ Session.expires result = Session.expires s
      /\ Session.rest result = Session.rest s
      /\ (result = s
          \/ (result = Session.set_error s
              /\ Row.expires_at googleAccount * 1000 < clock w
              /\ failure (respond p (token_request env
                                       (Row.refresh_token googleAccount)))
                 <> None))
      /\ (forall tokens,
             respond p (token_request env (Row.refresh_token googleAccount))
             = Success tokens ->
             result = s).
Proof.
  intros env p s user w g others Hg.
  destruct (Z.ltb_spec (Row.expires_at g * 1000) (clock w)) as [H|H].
  2:{ exists s, w. rewrite (session_reuse env p s user w g others Hg H). auto 10. }
  destruct (respond p (token_request env (Row.refresh_token g))) eqn:Hs.
  1, 2: (eexists (Session.set_error s), _;
         rewrite (session_refresh_failure env p s user w g others Hg _ H
                    ltac:(rewrite Hs; reflexivity));
         do 4 (split; [reflexivity|]);
         split; [right; repeat split; [exact H | discriminate] | discriminate]).
  destruct (session_refresh_success env p s user w g others Hg _ H Hs)
    as (rows' & _ & ->).
  exists s. eexists. auto 10.
Qed.

Lemma database_session_omits_refreshed_token_witness :
  exists result w',
    session Scenario.env Scenario.rotating Scenario.view Scenario.u1
            (Scenario.at_time 150)
    = (Returned result, w')
    /\ result = Scenario.view.
Proof.
  destruct (database_session_omits_refreshed_token
              Scenario.env Scenario.rotating Scenario.view Scenario.u1
              (Scenario.at_time 150) Scenario.row_u1 [] eq_refl)
    as (result & w' & Hrun & _ & _ & _ & _ & Hsame).
  exists result, w'. split; [exact Hrun|].
  apply (Hsame (ResponseTokens.mk "A2" 3600 (Some "R2"))). reflexivity.
Defined.

(** ** Further properties of the [jwt] callback *)

Lemma truthy_empty (s : string) : Js.truthy (Some s) = false <-> s = "".
Proof.
  simpl. rewrite negb_false_iff. apply String.eqb_eq.
Qed.

Lemma seconds_bounds (ms : Z) : ms / 1000 * 1000 <= ms < ms / 1000 * 1000 + 1000.
Proof.
  pose proof (Z.div_mod ms 1000 ltac:(lia)).
  pose proof (Z.mod_pos_bound ms 1000 ltac:(lia)). lia.
Qed.

(** X1. The only thing [jwt] ever throws is the guard's
    [Error("Missing refresh token")], and only on an expired token without a
    usable refresh token when no account is given; on every other input it
    returns a token: a rejected [fetch] or a refused exchange never escapes
    the callback. *)
Theorem jwt_throws_only_from_guard :
  forall env p token account profile w,
    (exists result w', jwt env p token account profile w = (Returned result, w'))
    \/ (account = None
        /\ JWT.expires_at token * 1000 <= clock w
        /\ Js.truthy (JWT.refresh_token token) = false
        /\ jwt env p token account profile w
           = (Threw (Js.Error "Missing refresh token"), w)).
Proof.
  intros env p token account profile w.
  destruct account as [a|]; [left; do 2 eexists; reflexivity|].
  destruct (Z.ltb_spec (clock w) (JWT.expires_at token * 1000)) as [H|H].
  { left. rewrite (jwt_reuse env p token profile w H). eauto. }
  destruct (Js.truthy (JWT.refresh_token token)) eqn:Hr.
  2:{ right. rewrite (jwt_missing_refresh env p token profile w H Hr). auto. }
  left.
  destruct (respond p (token_request env (JWT.refresh_token token))) eqn:Hs.
  - rewrite (jwt_refresh_failure env p token profile w _ H Hr
               ltac:(rewrite Hs; reflexivity)). eauto.
  - rewrite (jwt_refresh_failure env p token profile w _ H Hr
               ltac:(rewrite Hs; reflexivity)). eauto.
  - rewrite (jwt_refresh_success env p token profile w _ H Hr Hs). eauto.
Qed.

(** X2. Without a new sign-in, whatever token [jwt] returns has the [sub],
    [picture], [user] and remaining claims of the token it was given, and an
    [error] flag that was set on the way in is still set on the way out: no
    branch of the callback clears it. *)
Theorem jwt_keeps_identity_and_flag :
  forall env p token profile w result w',
    jwt env p token None profile w = (Returned result, w') ->
    JWT.sub result = JWT.sub token
    /\ JWT.picture result = JWT.picture token
    /\ JWT.claims result = JWT.claims token
    /\ JWT.user result = JWT.user token
    /\ (JWT.error token = Some RefreshAccessTokenError ->
        JWT.error result = Some RefreshAccessTokenError).
Proof.
  intros env p token profile w result w' Hrun.
  destruct (Z.ltb_spec (clock w) (JWT.expires_at token * 1000)) as [H|H].
  { rewrite (jwt_reuse env p token profile w H) in Hrun.
    injection Hrun as <- _. auto. }
  destruct (Js.truthy (JWT.refresh_token token)) eqn:Hr.
  2:{ rewrite (jwt_missing_refresh env p token profile w H Hr) in Hrun.
      discriminate Hrun. }
  destruct (respond p (token_request env (JWT.refresh_token token))) eqn:Hs.
  - rewrite (jwt_refresh_failure env p token profile w _ H Hr
               ltac:(rewrite Hs; reflexivity)) in Hrun.
    injection Hrun as <- _. simpl. auto.
  - rewrite (jwt_refresh_failure env p token profile w _ H Hr
               ltac:(rewrite Hs; reflexivity)) in Hrun.
    injection Hrun as <- _. simpl. auto.
  - rewrite (jwt_refresh_success env p token profile w _ H Hr Hs) in Hrun.
    injection Hrun as <- _. simpl. auto.
Qed.

Lemma jwt_keeps_identity_and_flag_witness :
  exists result w',
    jwt Scenario.env Scenario.rotating Scenario.token_A1_flagged None None
        (Scenario.at_time 150)
    = (Returned result, w')
    /\ JWT.access_token result = "A2"
    /\ JWT.claims result = [("iss", "example")]
    /\ JWT.error result = Some RefreshAccessTokenError.
Proof.
  eexists _, _. split; [reflexivity|]. split; [reflexivity|].
  destruct (jwt_keeps_identity_and_flag
              Scenario.env Scenario.rotating Scenario.token_A1_flagged None
              (Scenario.at_time 150) _ _ eq_refl)
    as (_ & _ & Hc & _ & He).
  split; [exact Hc | apply He; reflexivity].
Defined.

(** X3. A successful refresh that grants at least one second is not
    repeated: the returned token, read again in the world the refresh left
    behind, is returned as it is, with no call, whatever the provider would
    now answer. *)
Theorem jwt_refresh_then_reuse :
  forall env p p' token profile profile' w tokens,
    JWT.expires_at token * 1000 <= clock w ->
    Js.truthy (JWT.refresh_token token) = true ->
    respond p (token_request env (JWT.refresh_token token)) = Success tokens ->
    1 <= ResponseTokens.expires_in tokens ->
    exists result w',
      jwt env p token None profile w = (Returned result, w')
      /\ jwt env p' result None profile' w' = (Returned result, w').
Proof.
  intros env p p' token profile profile' w tokens H Hr Hs HE.
  rewrite (jwt_refresh_success env p token profile w tokens H Hr Hs).
  do 2 eexists. split; [reflexivity|].
  apply jwt_reuse. cbn [refreshed JWT.expires_at].
  unfold now.
  generalize (seconds_bounds
                (clock (exchanged p (token_request env (JWT.refresh_token token)) w))).
  generalize (clock (exchanged p (token_request env (JWT.refresh_token token)) w)).
  intros c. generalize (c / 1000). intros q Hq. lia.
Qed.

Lemma jwt_refresh_then_reuse_witness :
  exists result w',
    jwt Scenario.env Scenario.rotating Scenario.token_A1 None None
        (Scenario.at_time 150)
    = (Returned result, w')
    /\ jwt Scenario.env Scenario.refusing result None None w'
       = (Returned result, w').
Proof.
  apply (jwt_refresh_then_reuse
           Scenario.env Scenario.rotating Scenario.refusing Scenario.token_A1
           None None (Scenario.at_time 150)
           (ResponseTokens.mk "A2" 3600 (Some "R2"))).
  - vm_compute. discriminate.
  - reflexivity.
  - reflexivity.
  - vm_compute. discriminate.
Defined.

(** X4. A refresh that fails is tried again on every later read: under a
    provider that keeps failing and takes no negative time, [n + 1] successive
    reads of an expired token make exactly [n + 1] identical calls, write
    [n + 1] log lines, and end with the input token, flagged, its
    credentials untouched. *)
Theorem jwt_reads_retry_each_time :
  forall env p e n token w,
    JWT.expires_at token * 1000 <= clock w ->
    Js.truthy (JWT.refresh_token token) = true ->
    failure (respond p (token_request env (JWT.refresh_token token))) = Some e ->
    0 <= latency p (token_request env (JWT.refresh_token token)) ->
    jwt_reads env p (S n) token w
    = (Returned (flagged token),
       mkWorld
         (clock w
          + Z.of_nat (S n) * latency p (token_request env (JWT.refresh_token token)))
         (requests w
          ++ repeat (token_request env (JWT.refresh_token token)) (S n))
         (console w ++ repeat ("Error refreshing access token", e) (S n))
         (accounts w)).
Proof.
  intros env p e n. induction n as [|n IH]; intros token w H Hr Hf Hl.
  - unfold jwt_reads, bind.
    rewrite (jwt_refresh_failure env p token None w e H Hr Hf).
    unfold ret, logged, exchanged. cbn [clock requests console accounts repeat].
    f_equal. f_equal. lia.
  - change (jwt_reads env p (S (S n)) token w)
      with (bind (jwt env p token None None) (jwt_reads env p (S n)) w).
    unfold bind at 1.
    rewrite (jwt_refresh_failure env p token None w e H Hr Hf).
    rewrite (IH (flagged token)); cbn [flagged JWT.refresh_token JWT.expires_at].
    + unfold logged, exchanged. cbn [clock requests console accounts].
      f_equal. f_equal.
      * rewrite (Nat2Z.inj_succ (S n)). lia.
      * now rewrite <- app_assoc.
      * now rewrite <- app_assoc.
    + unfold logged, exchanged. simpl. lia.
    + exact Hr.
    + exact Hf.
    + exact Hl.
Qed.

Lemma jwt_reads_retry_each_time_witness :
  jwt_reads Scenario.env Scenario.refusing 3 Scenario.token_A1
            (Scenario.at_time 150)
  = (Returned Scenario.token_A1_flagged,
     mkWorld 150610
       (repeat (token_request Scenario.env (Some "R1")) 3)
       (repeat ("Error refreshing access token", Js.Payload "invalid_grant") 3)
       Scenario.table).
Proof.
  apply (jwt_reads_retry_each_time
           Scenario.env Scenario.refusing (Js.Payload "invalid_grant") 2%nat
           Scenario.token_A1 (Scenario.at_time 150)).
  - vm_compute. discriminate.
  - reflexivity.
  - reflexivity.
  - vm_compute. discriminate.
Defined.

(** X5. Before the expiry any number of reads costs nothing: [n] successive
    reads return the token as it is and leave the world as it was. *)
Theorem jwt_reads_before_expiry :
  forall env p n token w,
    clock w < JWT.expires_at token * 1000 ->
    jwt_reads env p n token w = (Returned token, w).
Proof.
  intros env p n token w H. induction n as [|n IH]; [reflexivity|].
  cbn [jwt_reads]. unfold bind at 1.
  rewrite (jwt_reuse env p token None w H). exact IH.
Qed.

Lemma jwt_reads_before_expiry_witness :
  jwt_reads Scenario.env Scenario.unreachable 5 Scenario.token_A1
            (Scenario.at_time 50)
  = (Returned Scenario.token_A1, Scenario.at_time 50).
Proof.
  apply (jwt_reads_before_expiry
           Scenario.env Scenario.unreachable 5%nat Scenario.token_A1
           (Scenario.at_time 50)).
  vm_compute. reflexivity.
Defined.

(** X6. After a successful refresh the token has lost its usable refresh
    token exactly when the provider answered with an empty one: [??] keeps
    the empty string, which the guard's [!] then treats as missing, so every
    later read of that token past its expiry throws. *)
Theorem jwt_empty_rotation_disables_refresh :
  forall env p token profile w tokens,
    JWT.expires_at token * 1000 <= clock w ->
    Js.truthy (JWT.refresh_token token) = true ->
    respond p (token_request env (JWT.refresh_token token)) = Success tokens ->
    exists result w',
      jwt env p token None profile w = (Returned result, w')
      /\ (Js.truthy (JWT.refresh_token result) = false
          <-> ResponseTokens.refresh_token tokens = Some "")
      /\ (ResponseTokens.refresh_token tokens = Some "" ->
          forall p' profile' later,
            JWT.expires_at result * 1000 <= clock later ->
            jwt env p' result None profile' later
            = (Threw (Js.Error "Missing refresh token"), later)).
Proof.
  intros env p token profile w tokens H Hr Hs.
  rewrite (jwt_refresh_success env p token profile w tokens H Hr Hs).
  do 2 eexists. split; [reflexivity|].
  cbn [refreshed JWT.refresh_token]. split.
  - destruct (ResponseTokens.refresh_token tokens) as [r|]; cbn [Js.nullish].
    + rewrite truthy_empty. split; [now intros -> | now intros [= ->]].
    + rewrite Hr. split; discriminate.
  - intros Hblank p' profile' later Hlate.
    apply jwt_missing_refresh; [exact Hlate|].
    cbn [refreshed JWT.refresh_token]. now rewrite Hblank.
Qed.

Lemma jwt_empty_rotation_disables_refresh_witness :
  exists result w',
    jwt Scenario.env Scenario.blanking Scenario.token_A1 None None
        (Scenario.at_time 150)
    = (Returned result, w')
    /\ JWT.refresh_token result = Some ""
    /\ jwt Scenario.env Scenario.granting result None None (Scenario.at_time 4000)
       = (Threw (Js.Error "Missing refresh token"), Scenario.at_time 4000).
Proof.
  destruct (jwt_empty_rotation_disables_refresh
              Scenario.env Scenario.blanking Scenario.token_A1 None
              (Scenario.at_time 150) (ResponseTokens.mk "A2" 3600 (Some "")))
    as (result & w' & Hrun & _ & Hthrows).
  - vm_compute. discriminate.
  - reflexivity.
  - reflexivity.
  - exists result, w'. split; [exact Hrun|]. split.
    + vm_compute in Hrun. now injection Hrun as <- _.
    + apply Hthrows; [reflexivity|].
      vm_compute in Hrun. injection Hrun as <- _. vm_compute. discriminate.
Defined.

(** X7. The console gets a line exactly when an exchange was made and
    failed, and that line carries what the provider answered (the refused
    body, or the rejection); every other evaluation of either callback,
    the throwing ones included, logs nothing. *)
Theorem failure_payload_is_logged :
  (forall env p token account profile w,
      console (snd (jwt env p token account profile w))
      = console w
        ++ match jwt_path token account w,
                 failure (respond p (token_request env (JWT.refresh_token token)))
           with
           | Refresh, Some e => [("Error refreshing access token", e)]
           | _, _ => []
           end)
  /\
  (forall env p s user w,
      console (snd (session env p s user w))
      = console w
        ++ match where_user (AdapterUser.id user) "google" (accounts w) with
           | googleAccount :: _ =>
               match session_path user w,
                     failure (respond p (token_request env
                                           (Row.refresh_token googleAccount)))
               with
               | Refresh, Some e => [("Error refreshing access token", e)]
               | _, _ => []
               end
           | [] => []
           end).
Proof.
  split.
  - intros env p token account profile w. unfold jwt_path.
    destruct account as [a|]; [simpl; now rewrite app_nil_r|].
    destruct (Z.ltb_spec (clock w) (JWT.expires_at token * 1000)) as [H|H].
    { rewrite (jwt_reuse env p token profile w H). simpl. now rewrite app_nil_r. }
    destruct (Js.truthy (JWT.refresh_token token)) eqn:Hr.
    2:{ rewrite (jwt_missing_refresh env p token profile w H Hr). simpl.
        now rewrite app_nil_r. }
    destruct (respond p (token_request env (JWT.refresh_token token))) eqn:Hs.
    + now rewrite (jwt_refresh_failure env p token profile w _ H Hr
                     ltac:(rewrite Hs; reflexivity)).
    + now rewrite (jwt_refresh_failure env p token profile w _ H Hr
                     ltac:(rewrite Hs; reflexivity)).
    + rewrite (jwt_refresh_success env p token profile w _ H Hr Hs). simpl.
      now rewrite app_nil_r.
  - intros env p s user w. unfold session_path.
    destruct (where_user (AdapterUser.id user) "google" (accounts w))
      as [|g others] eqn:Hg.
    { rewrite (session_without_rows env p s user w Hg). simpl.
      now rewrite app_nil_r. }
    destruct (Z.ltb_spec (Row.expires_at g * 1000) (clock w)) as [H|H].
    2:{ rewrite (session_reuse env p s user w g others Hg H). simpl.
        now rewrite app_nil_r. }
    destruct (respond p (token_request env (Row.refresh_token g))) eqn:Hs.
    + now rewrite (session_refresh_failure env p s user w g others Hg _ H
                     ltac:(rewrite Hs; reflexivity)).
    + now rewrite (session_refresh_failure env p s user w g others Hg _ H
                     ltac:(rewrite Hs; reflexivity)).
    + destruct (session_refresh_success env p s user w g others Hg _ H Hs)
        as (rows' & _ & ->). simpl. now rewrite app_nil_r.
Qed.

(** X8. Evaluated as JavaScript does, in binary64 with a rounding after the
    division and another after the addition,
    [Math.floor(Date.now() / 1000 + expires_in)] is exactly the whole
    seconds of the clock plus [expires_in], for every clock from the epoch
    on whose seconds, alone and with the lifetime added, stay below [2^42]:
    no rounding error reaches the integer part.  In that range the stored
    expiry, in milliseconds, is never later than the instant the grant
    really runs out and less than a second earlier. *)
Theorem binary64_floor_seconds_exact :
  forall nowMs expiresIn,
    Binary64.exact_range nowMs expiresIn ->
    exists expiry,
      Binary64.floor_seconds nowMs expiresIn = Some expiry
      /\ expiry = nowMs / 1000 + expiresIn
      /\ expiry = Js.floor_seconds nowMs expiresIn
      /\ expiry * 1000 <= nowMs + expiresIn * 1000 < expiry * 1000 + 1000.
Proof.
  intros nowMs expiresIn H. exists (nowMs / 1000 + expiresIn).
  split; [now apply binary64_floor_seconds|]. split; [reflexivity|].
  split; [now rewrite floor_seconds_spec|].
  generalize (seconds_bounds nowMs). generalize (nowMs / 1000). intros q Hq. lia.
Qed.

Lemma binary64_floor_seconds_exact_witness :
  exists expiry,
    Binary64.floor_seconds 1700000000999 3600 = Some expiry
    /\ expiry = 1700003600.
Proof.
  destruct (binary64_floor_seconds_exact 1700000000999 3600)
    as (expiry & Hrun & He & _).
  - vm_compute. repeat split; discriminate.
  - exists expiry. split; [exact Hrun|]. rewrite He. reflexivity.
Defined.

(** X9. While the provider takes no negative time and grants no negative
    lifetime, the expiry of the token never moves back: what [jwt] returns
    without a new sign-in expires no earlier than what it was given. *)
Theorem jwt_expiry_never_moves_back :
  forall env p token profile w result w',
    0 <= latency p (token_request env (JWT.refresh_token token)) ->
    (forall tokens,
        respond p (token_request env (JWT.refresh_token token)) = Success tokens ->
        0 <= ResponseTokens.expires_in tokens) ->
    jwt env p token None profile w = (Returned result, w') ->
    JWT.expires_at token <= JWT.expires_at result.
Proof.
  intros env p token profile w result w' Hl HE Hrun.
  destruct (Z.ltb_spec (clock w) (JWT.expires_at token * 1000)) as [H|H].
  { rewrite (jwt_reuse env p token profile w H) in Hrun.
    injection Hrun as <- _. lia. }
  destruct (Js.truthy (JWT.refresh_token token)) eqn:Hr.
  2:{ rewrite (jwt_missing_refresh env p token profile w H Hr) in Hrun.
      discriminate Hrun. }
  destruct (respond p (token_request env (JWT.refresh_token token))) eqn:Hs.
  - rewrite (jwt_refresh_failure env p token profile w _ H Hr
               ltac:(rewrite Hs; reflexivity)) in Hrun.
    injection Hrun as <- _. simpl. lia.
  - rewrite (jwt_refresh_failure env p token profile w _ H Hr
               ltac:(rewrite Hs; reflexivity)) in Hrun.
    injection Hrun as <- _. simpl. lia.
  - rewrite (jwt_refresh_success env p token profile w _ H Hr Hs) in Hrun.
    injection Hrun as <- _. cbn [refreshed JWT.expires_at].
    specialize (HE tokens eq_refl).
    assert (JWT.expires_at token
            <= now (exchanged p (token_request env (JWT.refresh_token token)) w))
      as Hnow; [|lia].
    apply now_reached. unfold exchanged. cbn [clock]. lia.
Qed.

Lemma jwt_expiry_never_moves_back_witness :
  exists result w',
    jwt Scenario.env Scenario.rotating Scenario.token_A1 None None
        (Scenario.at_time 150)
    = (Returned result, w')
    /\ JWT.expires_at Scenario.token_A1 <= JWT.expires_at result.
Proof.
  eexists _, _. split; [reflexivity|].
  eapply (jwt_expiry_never_moves_back
            Scenario.env Scenario.rotating Scenario.token_A1 None
            (Scenario.at_time 150)).
  - vm_compute. discriminate.
  - intros tokens [= <-]. vm_compute. discriminate.
  - reflexivity.
Defined.

(** X10. Every call the [jwt] callback sends carries a usable refresh token,
    the token's own, with the configured client id and secret and
    [grant_type=refresh_token]: it never posts an absent or empty one. *)
Theorem jwt_sends_only_usable_refresh_token :
  forall env p token account profile w,
  exists new,
    requests (snd (jwt env p token account profile w)) = requests w ++ new
    /\ forall req,
         In req new ->
         Js.truthy (TokenRequest.refresh_token req) = true
         /\ TokenRequest.refresh_token req = JWT.refresh_token token
         /\ TokenRequest.client_id req = AUTH_GOOGLE_ID env
         /\ TokenRequest.client_secret req = AUTH_GOOGLE_SECRET env
         /\ TokenRequest.grant_type req = "refresh_token"
         /\ TokenRequest.method req = "POST".
Proof.
  intros env p token account profile w.
  destruct account as [a|].
  { exists []. simpl. rewrite app_nil_r. split; [reflexivity | contradiction]. }
  destruct (Z.ltb_spec (clock w) (JWT.expires_at token * 1000)) as [H|H].
  { exists []. rewrite (jwt_reuse env p token profile w H). simpl.
    rewrite app_nil_r. split; [reflexivity | contradiction]. }
  destruct (Js.truthy (JWT.refresh_token token)) eqn:Hr.
  2:{ exists []. rewrite (jwt_missing_refresh env p token profile w H Hr). simpl.
      rewrite app_nil_r. split; [reflexivity | contradiction]. }
  exists [token_request env (JWT.refresh_token token)]. split.
  - destruct (respond p (token_request env (JWT.refresh_token token))) eqn:Hs.
    + now rewrite (jwt_refresh_failure env p token profile w _ H Hr
                     ltac:(rewrite Hs; reflexivity)).
    + now rewrite (jwt_refresh_failure env p token profile w _ H Hr
                     ltac:(rewrite Hs; reflexivity)).
    + now rewrite (jwt_refresh_success env p token profile w _ H Hr Hs).
  - intros req [<- | []].
    destruct (JWT.refresh_token token) as [r|]; [|discriminate Hr].
    simpl in Hr |- *. auto 10.
Qed.

(** ** From the callbacks to the client *)

(** X11. JWT strategy: the [session] callback copies [user] only, so the
    flag a failed refresh leaves in the token never reaches the session: the
    session's [error] is what the framework passed in, and the client effect
    calls [signIn] for the new session exactly as it would have for the old
    one; with an unflagged session it does not call it at all. *)
Theorem jwt_strategy_hides_refresh_error :
  forall env p token profile s w e,
    JWT.expires_at token * 1000 <= clock w ->
    Js.truthy (JWT.refresh_token token) = true ->
    failure (respond p (token_request env (JWT.refresh_token token))) = Some e ->
    exists token' w' s',
      jwt env p token None profile w = (Returned token', w')
      /\ JWT.error token' = Some RefreshAccessTokenError
      /\ jwt_session s token' w' = (Returned s', w')
      /\ Session.error s' = Session.error s
      /\ HomePage_effect (Some s') = HomePage_effect (Some s)
      /\ (Session.error s = None -> HomePage_effect (Some s') = []).
Proof.
  intros env p token profile s w e H Hr Hf.
  rewrite (jwt_refresh_failure env p token profile w e H Hr Hf).
  destruct (jwt_session_keeps_error s (flagged token)
              (logged e (exchanged p (token_request env (JWT.refresh_token token)) w)))
    as (s' & Hs' & He).
  exists (flagged token). eexists. exists s'.
  split; [reflexivity|]. split; [reflexivity|].
  split; [exact Hs'|]. split; [exact He|].
  unfold HomePage_effect. rewrite He. split; [reflexivity|]. now intros ->.
Qed.

Lemma jwt_strategy_hides_refresh_error_witness :
  exists token' w' s',
    jwt Scenario.env Scenario.refusing Scenario.token_A1 None None
        (Scenario.at_time 150)
    = (Returned token', w')
    /\ JWT.error token' = Some RefreshAccessTokenError
    /\ jwt_session Scenario.view token' w' = (Returned s', w')
    /\ HomePage_effect (Some s') = [].
Proof.
  destruct (jwt_strategy_hides_refresh_error
              Scenario.env Scenario.refusing Scenario.token_A1 None
              Scenario.view (Scenario.at_time 150) (Js.Payload "invalid_grant"))
    as (token' & w' & s' & Hrun & Hflag & Hsession & _ & _ & Hquiet).
  - vm_compute. discriminate.
  - reflexivity.
  - reflexivity.
  - exists token', w', s'. repeat split; try assumption.
    apply Hquiet. reflexivity.
Defined.

(** X12. Database strategy: for a session that comes in without an error
    and a user with a stored row, the client effect calls [signIn] on the
    returned session exactly when the exchange was made and failed. *)
Theorem database_failure_triggers_sign_in :
  forall env p s user w googleAccount others,
    where_user (AdapterUser.id user) "google" (accounts w)
    = googleAccount :: others ->
    Session.error s = None ->
    exists s' w',
      session env p s user w = (Returned s', w')
      /\ (HomePage_effect (Some s') = [SignIn]
          <-> Row.expires_at googleAccount * 1000 < clock w
              /\ failure (respond p (token_request env
                                       (Row.refresh_token googleAccount)))
                 <> None)
      /\ (HomePage_effect (Some s') = [SignIn] \/ HomePage_effect (Some s') = []).
Proof.
  intros env p s user w g others Hg Hok.
  assert (HomePage_effect (Some s) = []) as Hquiet.
  { unfold HomePage_effect. now rewrite Hok. }
  destruct (Z.ltb_spec (Row.expires_at g * 1000) (clock w)) as [H|H].
  2:{ exists s, w. rewrite (session_reuse env p s user w g others Hg H).
      split; [reflexivity|]. rewrite Hquiet. split; [|auto].
      split; [discriminate | intros [Hlt _]; lia]. }
  destruct (respond p (token_request env (Row.refresh_token g))) eqn:Hs.
  1, 2: (eexists (Session.set_error s), _;
         rewrite (session_refresh_failure env p s user w g others Hg _ H
                    ltac:(rewrite Hs; reflexivity));
         split; [reflexivity|]; split; [|left; reflexivity];
         split; [intros _; split; [exact H | discriminate] | reflexivity]).
  destruct (session_refresh_success env p s user w g others Hg _ H Hs)
    as (rows' & _ & ->).
  exists s. eexists. split; [reflexivity|]. rewrite Hquiet. split; [|auto].
  split; [discriminate | intros [_ Hne]; now elim Hne].
Qed.

Lemma database_failure_triggers_sign_in_witness :
  exists s' w',
    session Scenario.env Scenario.unreachable Scenario.view Scenario.u1
            (Scenario.at_time 150)
    = (Returned s', w')
    /\ HomePage_effect (Some s') = [SignIn].
Proof.
  destruct (database_failure_triggers_sign_in
              Scenario.env Scenario.unreachable Scenario.view Scenario.u1
              (Scenario.at_time 150) Scenario.row_u1 [] eq_refl eq_refl)
    as (s' & w' & Hrun & Hiff & _).
  exists s', w'. split; [exact Hrun|]. apply Hiff. split.
  - vm_compute. reflexivity.
  - vm_compute. discriminate.
Defined.



(** ** Further properties of the account table *)

Lemma where_user_app (uid prov : string) (rows rows' : list Row.t) :
  where_user uid prov (rows ++ rows')
  = where_user uid prov rows ++ where_user uid prov rows'.
Proof. apply filter_app. Qed.

Lemma update_row_keeps_keys (prov pid access : string) (expires : Z)
    (refresh : option string) (rows rows' : list Row.t) :
  update_row prov pid (set_tokens access expires refresh) rows = Some rows' ->
  map row_keys rows' = map row_keys rows.
Proof.
  revert rows'. induction rows as [|r rows IH]; intros rows'; simpl; [discriminate|].
  destruct (row_is prov pid r).
  - now intros [= <-].
  - destruct (update_row prov pid (set_tokens access expires refresh) rows)
      as [rest|]; [|discriminate].
    intros [= <-]. simpl. now rewrite (IH rest eq_refl).
Qed.

Lemma existsb_row_keys (prov pid : string) (rows rows' : list Row.t) :
  map row_keys rows' = map row_keys rows ->
  existsb (row_is prov pid) rows' = existsb (row_is prov pid) rows.
Proof.
  revert rows'. induction rows as [|r rows IH]; intros [|r' rows']; simpl;
    try discriminate; [reflexivity|].
  unfold row_keys at 1 2. intros [= Hu Hp Hi Hrest].
  rewrite (IH rows' Hrest). unfold row_is. now rewrite Hp, Hi.
Qed.

Lemma unique_keys_row_keys (rows rows' : list Row.t) :
  map row_keys rows' = map row_keys rows ->
  unique_keys rows' = unique_keys rows.
Proof.
  revert rows'. induction rows as [|r rows IH]; intros [|r' rows']; simpl;
    try discriminate; [reflexivity|].
  unfold row_keys at 1 2. intros [= Hu Hp Hi Hrest].
  now rewrite Hp, Hi, (existsb_row_keys _ _ _ _ Hrest), (IH rows' Hrest).
Qed.

(** With unique keys a successful refresh rewrites the row it read, where it
    stands. *)
Lemma session_refresh_in_place (env : Env) (p : Provider) (s : Session.t)
    (user : AdapterUser.t) (w : World) (g : Row.t) (others : list Row.t)
    (tokens : ResponseTokens.t) :
  unique_keys (accounts w) = true ->
  where_user (AdapterUser.id user) "google" (accounts w) = g :: others ->
  Row.expires_at g * 1000 < clock w ->
  respond p (token_request env (Row.refresh_token g)) = Success tokens ->
  exists before after,
    accounts w = before ++ g :: after
    /\ where_user (AdapterUser.id user) "google" before = []
    /\ where_user (AdapterUser.id user) "google" after = others
    /\ Row.userId g = AdapterUser.id user
    /\ Row.provider g = "google"
    /\ session env p s user w
       = (Returned s,
          mkWorld (clock w + latency p (token_request env (Row.refresh_token g)))
                  (requests w ++ [token_request env (Row.refresh_token g)])
                  (console w)
                  (before
                   ++ set_tokens (ResponseTokens.access_token tokens)
                        (now (exchanged p (token_request env (Row.refresh_token g)) w)
                         + ResponseTokens.expires_in tokens)
                        (Js.nullish (ResponseTokens.refresh_token tokens)
                                    (Row.refresh_token g))
                        g
                   :: after)).
Proof.
  intros Hu Hg H Hs.
  destruct (session_refresh_success env p s user w g others Hg tokens H Hs)
    as (rows' & Hup & Hrun).
  destruct (where_user_first _ _ _ _ _ Hg)
    as (before & after & Hrows & Hb & Hid & Hp).
  exists before, after. split; [exact Hrows|]. split; [exact Hb|].
  split.
  { rewrite Hrows, where_user_app, Hb in Hg. simpl in Hg.
    unfold where_user in Hg. simpl in Hg. rewrite Hid, Hp, !String.eqb_refl in Hg.
    simpl in Hg. now injection Hg. }
  split; [exact Hid|]. split; [exact Hp|].
  rewrite Hrows in Hu, Hup. rewrite <- Hp in Hup.
  rewrite (update_row_unique _ _ _ _ Hu) in Hup. injection Hup as <-.
  exact Hrun.
Qed.





(** X16. The database callback never adds, deletes or re-keys a row: after
    every evaluation the table has the same rows in the same order as far as
    [userId], [provider] and [providerAccountId] go, so unique keys stay
    unique; and with unique keys, what any other user (or the same user under
    another provider) has stored is read back exactly as before. *)
Theorem database_session_keeps_other_rows :
  forall env p s user w,
    map row_keys (accounts (snd (session env p s user w)))
    = map row_keys (accounts w)
    /\ unique_keys (accounts (snd (session env p s user w)))
       = unique_keys (accounts w)
    /\ (unique_keys (accounts w) = true ->
        forall uid prov,
          uid <> AdapterUser.id user \/ prov <> "google" ->
          where_user uid prov (accounts (snd (session env p s user w)))
          = where_user uid prov (accounts w)).
Proof.
  intros env p s user w.
  assert (accounts (snd (session env p s user w)) = accounts w
          \/ exists g others tokens,
               where_user (AdapterUser.id user) "google" (accounts w) = g :: others
               /\ Row.expires_at g * 1000 < clock w
               /\ respond p (token_request env (Row.refresh_token g))
                  = Success tokens) as [Hsame | (g & others & tokens & Hg & H & Hs)].
  { destruct (where_user (AdapterUser.id user) "google" (accounts w))
      as [|g others] eqn:Hg.
    { left. now rewrite (session_without_rows env p s user w Hg). }
    destruct (Z.ltb_spec (Row.expires_at g * 1000) (clock w)) as [H|H].
    2:{ left. now rewrite (session_reuse env p s user w g others Hg H). }
    destruct (respond p (token_request env (Row.refresh_token g))) eqn:Hs.
    - left. now rewrite (session_refresh_failure env p s user w g others Hg _ H
                           ltac:(rewrite Hs; reflexivity)).
    - left. now rewrite (session_refresh_failure env p s user w g others Hg _ H
                           ltac:(rewrite Hs; reflexivity)).
    - right. eauto 10. }
  { rewrite Hsame. auto. }
  assert (map row_keys (accounts (snd (session env p s user w)))
          = map row_keys (accounts w)) as Hkeys.
  { destruct (session_refresh_success env p s user w g others Hg tokens H Hs)
      as (rows' & Hup & ->). cbn [snd accounts].
    exact (update_row_keeps_keys _ _ _ _ _ _ _ Hup). }
  split; [exact Hkeys|]. split; [exact (unique_keys_row_keys _ _ Hkeys)|].
  intros Hu uid prov Hother.
  destruct (session_refresh_in_place env p s user w g others tokens Hu Hg H Hs)
    as (before & after & Hrows & _ & _ & Hid & Hp & ->).
  cbn [snd accounts]. rewrite Hrows, !where_user_app. f_equal.
  unfold where_user. cbn [filter set_tokens Row.userId Row.provider].
  assert (String.eqb (Row.userId g) uid && String.eqb (Row.provider g) prov
          = false) as ->; [|reflexivity].
  apply andb_false_iff. rewrite Hid, Hp.
  destruct Hother as [Hne | Hne]; [left | right]; apply String.eqb_neq; congruence.
Qed.

Lemma database_session_keeps_other_rows_witness :
  where_user "u2" "google"
    (accounts (snd (session Scenario.env Scenario.rotating Scenario.view
                            Scenario.u1 (Scenario.at_time 150))))
  = [Scenario.row_u2]
  /\ where_user "u1" "github"
       (accounts (snd (session Scenario.env Scenario.rotating Scenario.view
                               Scenario.u1 (Scenario.at_time 150))))
     = [Scenario.row_u1_github].
Proof.
  destruct (database_session_keeps_other_rows
              Scenario.env Scenario.rotating Scenario.view Scenario.u1
              (Scenario.at_time 150)) as (_ & _ & Hframe).
  split.
  - rewrite (Hframe eq_refl "u2" "google"); [reflexivity|].
    left. discriminate.
  - rewrite (Hframe eq_refl "u1" "github"); [reflexivity|].
    right. discriminate.
Defined.

(** X17. The database callback does not look at the stored refresh token
    before the exchange: for a row past its expiry that has none, it still
    returns a session and still makes exactly one call, in which
    [URLSearchParams] has turned the empty column into
    [refresh_token=null]. *)
Theorem database_exchanges_without_refresh_token :
  forall env p s user w googleAccount others,
    where_user (AdapterUser.id user) "google" (accounts w)
    = googleAccount :: others ->
    Row.expires_at googleAccount * 1000 < clock w ->
    Row.refresh_token googleAccount = None ->
    exists result w' sent,
      session env p s user w = (Returned result, w')
      /\ requests w' = requests w ++ [sent]
      /\ TokenRequest.refresh_token sent = Some "null"
      /\ TokenRequest.grant_type sent = "refresh_token".
Proof.
  intros env p s user w g others Hg H Hnone.
  assert (TokenRequest.refresh_token (token_request env (Row.refresh_token g))
          = Some "null") as Hnull by now rewrite Hnone.
  destruct (respond p (token_request env (Row.refresh_token g))) eqn:Hs.
  - rewrite (session_refresh_failure env p s user w g others Hg _ H
               ltac:(rewrite Hs; reflexivity)).
    do 3 eexists. split; [reflexivity|]. split; [reflexivity|]. auto.
  - rewrite (session_refresh_failure env p s user w g others Hg _ H
               ltac:(rewrite Hs; reflexivity)).
    do 3 eexists. split; [reflexivity|]. split; [reflexivity|]. auto.
  - destruct (session_refresh_success env p s user w g others Hg _ H Hs)
      as (rows' & _ & ->).
    do 3 eexists. split; [reflexivity|]. split; [reflexivity|]. auto.
Qed.

Lemma database_exchanges_without_refresh_token_witness :
  exists result w' sent,
    session Scenario.env Scenario.refusing Scenario.view Scenario.u4
            (Scenario.wide_at_time 150)
    = (Returned result, w')
    /\ requests w' = requests (Scenario.wide_at_time 150) ++ [sent]
    /\ TokenRequest.refresh_token sent = Some "null"
    /\ TokenRequest.grant_type sent = "refresh_token".
Proof.
  apply (database_exchanges_without_refresh_token
           Scenario.env Scenario.refusing Scenario.view Scenario.u4
           (Scenario.wide_at_time 150) Scenario.row_u4 []).
  - reflexivity.
  - vm_compute. reflexivity.
  - reflexivity.
Defined.

(** ** Refreshes as seen from the session *)

Lemma jwt_refresh_calls (env : Env) (p : Provider) (token : JWT.t)
    (profile : option Profile.t) (w : World) :
  JWT.expires_at token * 1000 <= clock w ->
  Js.truthy (JWT.refresh_token token) = true ->
  requests (snd (jwt env p token None profile w))
  = requests w ++ [token_request env (JWT.refresh_token token)].
Proof.
  intros H Hr.
  destruct (respond p (token_request env (JWT.refresh_token token))) eqn:Hs.
  - now rewrite (jwt_refresh_failure env p token profile w _ H Hr
                   ltac:(rewrite Hs; reflexivity)).
  - now rewrite (jwt_refresh_failure env p token profile w _ H Hr
                   ltac:(rewrite Hs; reflexivity)).
  - now rewrite (jwt_refresh_success env p token profile w _ H Hr Hs).
Qed.

(** X18. JWT strategy: a refresh, successful or failed, does not change
    what the [session] callback makes of the token: for any session and in
    any world, the callback returns for the token [jwt] gave back what it
    would have returned for the token [jwt] was given. *)
Theorem jwt_refresh_invisible_in_session :
  forall env p token profile w result w',
    jwt env p token None profile w = (Returned result, w') ->
    forall s later, jwt_session s result later = jwt_session s token later.
Proof.
  intros env p token profile w result w' Hrun s later.
  assert (JWT.user result = JWT.user token) as Huser.
  { destruct (Z.ltb_spec (clock w) (JWT.expires_at token * 1000)) as [H|H].
    { rewrite (jwt_reuse env p token profile w H) in Hrun.
      now injection Hrun as <- _. }
    destruct (Js.truthy (JWT.refresh_token token)) eqn:Hr.
    2:{ rewrite (jwt_missing_refresh env p token profile w H Hr) in Hrun.
        discriminate Hrun. }
    destruct (respond p (token_request env (JWT.refresh_token token))) eqn:Hs.
    - rewrite (jwt_refresh_failure env p token profile w _ H Hr
                 ltac:(rewrite Hs; reflexivity)) in Hrun.
      now injection Hrun as <- _.
    - rewrite (jwt_refresh_failure env p token profile w _ H Hr
                 ltac:(rewrite Hs; reflexivity)) in Hrun.
      now injection Hrun as <- _.
    - rewrite (jwt_refresh_success env p token profile w _ H Hr Hs) in Hrun.
      now injection Hrun as <- _. }
  unfold jwt_session. now rewrite Huser.
Qed.

Lemma jwt_refresh_invisible_in_session_witness :
  exists result w',
    jwt Scenario.env Scenario.rotating Scenario.token_A1 None None
        (Scenario.at_time 150)
    = (Returned result, w')
    /\ JWT.access_token result = "A2"
    /\ jwt_session Scenario.view result w'
       = jwt_session Scenario.view Scenario.token_A1 w'.
Proof.
  eexists _, _. split; [reflexivity|]. split; [reflexivity|].
  eapply (jwt_refresh_invisible_in_session
            Scenario.env Scenario.rotating Scenario.token_A1 None
            (Scenario.at_time 150)).
  reflexivity.
Defined.

(** X19. A successful refresh that grants no time at all ([expires_in] zero
    or negative) leaves a token that is expired on arrival: as long as its
    refresh token is usable, the very next read makes the exchange again. *)
Theorem jwt_zero_lifetime_refreshes_again :
  forall env p p' token profile profile' w tokens,
    JWT.expires_at token * 1000 <= clock w ->
    Js.truthy (JWT.refresh_token token) = true ->
    respond p (token_request env (JWT.refresh_token token)) = Success tokens ->
    ResponseTokens.expires_in tokens <= 0 ->
    ResponseTokens.refresh_token tokens <> Some "" ->
    exists result w',
      jwt env p token None profile w = (Returned result, w')
      /\ requests (snd (jwt env p' result None profile' w'))
         = requests w' ++ [token_request env (JWT.refresh_token result)].
Proof.
  intros env p p' token profile profile' w tokens H Hr Hs HE Hblank.
  rewrite (jwt_refresh_success env p token profile w tokens H Hr Hs).
  do 2 eexists. split; [reflexivity|].
  apply jwt_refresh_calls; cbn [refreshed JWT.expires_at JWT.refresh_token].
  - apply now_reached. lia.
  - destruct (ResponseTokens.refresh_token tokens) as [r|]; cbn [Js.nullish];
      [|exact Hr].
    destruct (Js.truthy (Some r)) eqn:Ht; [reflexivity|].
    apply truthy_empty in Ht. subst r. now elim Hblank.
Qed.

Lemma jwt_zero_lifetime_refreshes_again_witness :
  exists result w',
    jwt Scenario.env
        (mkProvider (fun _ => Success (ResponseTokens.mk "A2" 0 None))
                    (fun _ => 5))
        Scenario.token_A1 None None (Scenario.at_time 150)
    = (Returned result, w')
    /\ requests (snd (jwt Scenario.env Scenario.granting result None None w'))
       = requests w' ++ [token_request Scenario.env (JWT.refresh_token result)].
Proof.
  apply (jwt_zero_lifetime_refreshes_again
           Scenario.env
           (mkProvider (fun _ => Success (ResponseTokens.mk "A2" 0 None))
                       (fun _ => 5))
           Scenario.granting Scenario.token_A1 None None (Scenario.at_time 150)
           (ResponseTokens.mk "A2" 0 None)).
  - vm_compute. discriminate.
  - reflexivity.
  - reflexivity.
  - vm_compute. discriminate.
  - discriminate.
Defined.
